(** * Word Frequency Analyzer: a shallow embedding of [web_Scrapping.py]

    The development follows the module function by function:
    [clean_text], [get_word_stats], [download_button], [get_book_url] and
    the "Analyze Text" handler.  Python [str] values are sequences of
    Unicode code points, [bytes] values are sequences of octets, the
    [collections.Counter] is an insertion-ordered association list, and the
    percentage column is computed in IEEE-754 binary64 as numpy does. *)

From Stdlib Require Import Ascii String.
From Stdlib Require Import List NArith ZArith Bool Lia.
From Stdlib Require Import Permutation Sorted Floats DecimalNat.
From Equations Require Import Equations.
Import ListNotations.

(* ================================================================== *)
(** * Part I: definitions                                              *)
(* ================================================================== *)

(** ** Strings *)

(** A Python [str]: an immutable sequence of code points. *)
Definition char := N.
Definition str := list char.

(** A literal of the source, all ASCII. *)
Definition lit (s : string) : str := map N_of_ascii (list_ascii_of_string s).

Definition char_eqb : char -> char -> bool := N.eqb.

Fixpoint str_eqb (a b : str) : bool :=
  match a, b with
  | [], [] => true
  | x :: a', y :: b' => char_eqb x y && str_eqb a' b'
  | _, _ => false
  end.

(** [x in xs] on a list of strings. *)
Definition str_in (w : str) (ws : list str) : bool := existsb (str_eqb w) ws.

(** [sep.join(ws)]. *)
Fixpoint join (sep : str) (ws : list str) : str :=
  match ws with
  | [] => []
  | [w] => w
  | w :: rest => w ++ sep ++ join sep rest
  end.

Module Unicode.

Local Open Scope N_scope.

Definition in_range (lo hi c : char) : bool := (lo <=? c) && (c <=? hi).

Definition is_ascii_upper (c : char) : bool := in_range 65 90 c.
Definition is_ascii_lower (c : char) : bool := in_range 97 122 c.
Definition is_ascii (c : char) : bool := c <? 128.

(** [str.isspace] on one code point, which is also what [\s] matches in a
    [str] pattern and what [str.split()] separates on: the code points of
    bidirectional class WS, B or S, or of category Zs. *)
Definition isspace (c : char) : bool :=
  in_range 9 13 c || in_range 28 32 c
  || (c =? 133) || (c =? 160) || (c =? 5760)
  || in_range 8192 8202 c || (c =? 8232) || (c =? 8233)
  || (c =? 8239) || (c =? 8287) || (c =? 12288).

End Unicode.

(** ** Regular expressions: the one shape the module uses *)

(** An item of a bracket expression: a range [lo-hi] or the class [\s]. *)
Inductive class_item :=
| CRange (lo hi : char)
| CSpace.

Definition item_matches (i : class_item) (c : char) : bool :=
  match i with
  | CRange lo hi => Unicode.in_range lo hi c
  | CSpace => Unicode.isspace c
  end.

(** A one-character pattern [[...]] or [[^...]]. *)
Record char_class := { negated : bool; items : list class_item }.

Definition class_matches (p : char_class) (c : char) : bool :=
  xorb p.(negated) (existsb (fun i => item_matches i c) p.(items)).

(** [re.sub(p, '', s)] for a one-character pattern [p]: every match is a
    single character, and each is replaced by the empty string. *)
Definition re_sub_empty (p : char_class) (s : str) : str :=
  filter (fun c => negb (class_matches p c)) s.

(** The pattern [[^a-zA-Z\s]] of [clean_text]. *)
Definition not_letter_or_space : char_class :=
  {| negated := true; items := [CRange 97 122; CRange 65 90; CSpace]%N |}.

(** ** [str.split()] *)

(** The scanning loop of [str.split()] with no separator: skip a run of
    whitespace, then collect characters up to the next whitespace. *)
Fixpoint skip_space (s : str) : str :=
  match s with
  | c :: rest => if Unicode.isspace c then skip_space rest else s
  | [] => []
  end.

Fixpoint scan_word (s : str) : str * str :=
  match s with
  | c :: rest =>
      if Unicode.isspace c then ([], s)
      else let (w, tail) := scan_word rest in (c :: w, tail)
  | [] => ([], [])
  end.

Lemma scan_word_length (s : str) : length (snd (scan_word s)) <= length s.
Proof.
  induction s as [|c rest IH]; simpl; [lia|].
  destruct (Unicode.isspace c); simpl; [lia|].
  destruct (scan_word rest); simpl in *; lia.
Qed.

Lemma skip_space_length (s : str) : length (skip_space s) <= length s.
Proof.
  induction s as [|c rest IH]; simpl; [lia|].
  destruct (Unicode.isspace c); simpl; lia.
Qed.

Definition inspect {A : Type} (a : A) : {b : A | a = b} := exist _ a eq_refl.

Equations? split (s : str) : list str by wf (length s) lt :=
  split s with inspect (skip_space s) => {
    | exist _ [] _ := [];
    | exist _ (c :: rest) Hskip :=
        (c :: fst (scan_word rest)) :: split (snd (scan_word rest)) }.
Proof.
  pose proof (skip_space_length s) as H1.
  pose proof (scan_word_length rest) as H2.
  rewrite Hskip in H1. simpl in H1. lia.
Qed.

(** [s.strip()]: whitespace removed at both ends. *)
Definition strip (s : str) : str := rev (skip_space (rev (skip_space s))).

(** ** [clean_text] *)

Section Normalizer.

(** [str.lower] outside ASCII is the interpreter's Unicode table; it maps a
    code point, given what stands before and after it (the final sigma
    rule looks at the context), to one or more code points. *)
Variable unicode_lower : str -> char -> str -> str.

(** [stopwords.words('english')] of the NLTK corpus. *)
Variable stopwords : list str.

(** Lowercasing of one code point: ASCII capitals move down by 32, the
    rest of ASCII and the whitespace code points have no case mapping. *)
Definition lower_char (before : str) (c : char) (after : str) : str :=
  if Unicode.is_ascii_upper c then [(c + 32)%N]
  else if Unicode.is_ascii c || Unicode.isspace c then [c]
  else unicode_lower before c after.

Fixpoint lower_from (before s : str) : str :=
  match s with
  | [] => []
  | c :: rest => lower_char before c rest ++ lower_from (before ++ [c]) rest
  end.

(** [text.lower()]. *)
Definition str_lower (text : str) : str := lower_from [] text.

(** The function as written:
<<
  text = re.sub(r'[^a-zA-Z\s]', '', text.lower())
  words = text.split()
  words = [word for word in words if word not in stopwords.words('english')]
  return words
>> *)
Definition clean_text (text : str) : list str :=
  let text := re_sub_empty not_letter_or_space (str_lower text) in
  let words := split text in
  let words := filter (fun word => negb (str_in word stopwords)) words in
  words.

End Normalizer.

(** ** Numbers as text *)

Fixpoint uint_chars (u : Decimal.uint) : str :=
  match u with
  | Decimal.Nil => []
  | Decimal.D0 u' => 48%N :: uint_chars u'
  | Decimal.D1 u' => 49%N :: uint_chars u'
  | Decimal.D2 u' => 50%N :: uint_chars u'
  | Decimal.D3 u' => 51%N :: uint_chars u'
  | Decimal.D4 u' => 52%N :: uint_chars u'
  | Decimal.D5 u' => 53%N :: uint_chars u'
  | Decimal.D6 u' => 54%N :: uint_chars u'
  | Decimal.D7 u' => 55%N :: uint_chars u'
  | Decimal.D8 u' => 56%N :: uint_chars u'
  | Decimal.D9 u' => 57%N :: uint_chars u'
  end.

(** [str(n)] for a non-negative [int]. *)
Definition str_of_N (n : N) : str := uint_chars (N.to_uint n).
Definition str_of_nat (n : nat) : str := uint_chars (Nat.to_uint n).

(** ** binary64 arithmetic as numpy and the interpreter perform it *)

Module Float64.

Local Open Scope Z_scope.

(** Conversion of an integer, to the nearest double, ties to even. *)
Definition of_Z (z : Z) : float :=
  SF2Prim (binary_normalize prec emax z 0 false).

(** C [rint] in the default rounding mode: the nearest integer, ties to
    even; a double with a non-negative exponent is an integer already. *)
Definition rint (x : float) : float :=
  match Prim2SF x with
  | S754_finite s m e =>
      if 0 <=? e then x
      else
        let d := 2 ^ (- e) in
        let q := Zpos m / d in
        let r := Zpos m mod d in
        let n := match 2 * r ?= d with
                 | Lt => q
                 | Gt => q + 1
                 | Eq => if Z.even q then q else q + 1
                 end in
        SF2Prim (binary_normalize prec emax (if s then - n else n) 0 s)
  | _ => x
  end.

(** [numpy.round(x, 2)]: multiply by [10**2], [rint], divide by [10**2]. *)
Definition round2 (x : float) : float :=
  (rint (x * of_Z 100) / of_Z 100)%float.

(** The rational [m * 2^e / 10^p] as a fraction of two naturals. *)
Definition scaled (m : positive) (e p : Z) : Z * Z :=
  (Zpos m * 2 ^ Z.max e 0 * 10 ^ Z.max (- p) 0,
   2 ^ Z.max (- e) 0 * 10 ^ Z.max p 0).

(** [d * 10^p] to the nearest double, ties to even, for [d > 0]: what
    [float(s)] returns on the decimal string of [d * 10^p]. *)
Definition of_decimal (d p : Z) : spec_float :=
  if 0 <=? p then binary_normalize prec emax (d * 10 ^ p) 0 false
  else SFdiv prec emax (S754_finite false (Z.to_pos d) 0)
                       (S754_finite false (Z.to_pos (10 ^ (- p))) 0).

(** The position of the decimal point: the least [k] with
    [m * 2^e < 10^k], found next to an estimate from the binary length. *)
Definition decpt (m : positive) (e : Z) : Z :=
  let est := (Z.log2 (Zpos m) + e) * 30103 / 100000 in
  let below k := let (a, b) := scaled m e k in a <? b in
  if below (est - 1) then est - 1
  else if below est then est
  else if below (est + 1) then est + 1
  else est + 2.

(** Among the decimals of [n] significant digits, the two around
    [m * 2^e]; the result is the one that converts back to the same
    double, and the nearer one when both do. *)
Definition candidate (m : positive) (e k n : Z) : option Z :=
  let p := k - n in
  let (a, b) := scaled m e p in
  let lo := a / b in
  let hi := lo + 1 in
  let r := a mod b in
  let back d := SFeqb (of_decimal d p) (S754_finite false m e) in
  match (0 <? lo) && back lo, back hi with
  | true, true =>
      match 2 * r ?= b with
      | Lt => Some lo
      | Gt => Some hi
      | Eq => Some (if Z.even lo then lo else hi)
      end
  | true, false => Some lo
  | false, true => Some hi
  | false, false => None
  end.

(** The shortest digit string that round-trips: 17 digits always do. *)
Fixpoint shortest (m : positive) (e k n : Z) (fuel : nat) : Z * Z :=
  match fuel with
  | O => (0, n)
  | S fuel' =>
      match candidate m e k n with
      | Some d => (d, n)
      | None => shortest m e k (n + 1) fuel'
      end
  end.

Fixpoint strip_zeros (r : str) : str :=
  match r with
  | c :: r' => if (c =? 48)%N then strip_zeros r' else r
  | [] => []
  end.

Definition rstrip_zeros (s : str) : str := rev (strip_zeros (rev s)).

Definition zeros (n : Z) : str := repeat 48%N (Z.to_nat n).

(** The layout of [repr]: digits [ds] with the decimal point after the
    first [k] of them; exponent notation when [k <= -4] or [k > 16], and
    [.0] added to a number with no fractional digit. *)
Definition format_short (ds : str) (k : Z) : str :=
  let len := Z.of_nat (List.length ds) in
  if (k <=? -4) || (16 <? k) then
    let x := k - 1 in
    let mant := match ds with
                | [] => []
                | [c] => [c]
                | c :: rest => c :: 46%N :: rest
                end in
    let ex := str_of_N (Z.to_N (Z.abs x)) in
    mant ++ [101%N; if x <? 0 then 45%N else 43%N]
         ++ (if Z.abs x <? 10 then 48%N :: ex else ex)
  else if k <=? 0 then [48%N; 46%N] ++ zeros (- k) ++ ds
  else if k <? len then
    firstn (Z.to_nat k) ds ++ 46%N :: skipn (Z.to_nat k) ds
  else ds ++ zeros (k - len) ++ [46%N; 48%N].

(** [repr(x)] of a [float], which [astype(str)] applies to each element:
    the shortest decimal string that converts back to [x]. *)
Definition repr (x : float) : str :=
  match Prim2SF x with
  | S754_nan => lit "nan"
  | S754_infinity s => if s then lit "-inf" else lit "inf"
  | S754_zero s => if s then lit "-0.0" else lit "0.0"
  | S754_finite s m e =>
      let k := decpt m e in
      let (d, n) := shortest m e k 1 17 in
      let ds := str_of_N (Z.to_N d) in
      let k' := k + Z.of_nat (List.length ds) - n in
      let body := format_short (rstrip_zeros ds) k' in
      if s then 45%N :: body else body
  end.

End Float64.

(** ** Data frames *)

(** A [pandas.DataFrame] with rows of type [A]: column labels, the index,
    and the rows in order. *)
Record Frame (A : Type) := mkFrame {
  columns : list str;
  index : list nat;
  rows : list A
}.
Arguments mkFrame {A} columns index rows.
Arguments columns {A} f.
Arguments index {A} f.
Arguments rows {A} f.

(** [pd.DataFrame(data, columns=cols)]: a fresh [RangeIndex]. *)
Definition DataFrame {A : Type} (data : list A) (cols : list str) : Frame A :=
  {| columns := cols; index := seq 0 (List.length data); rows := data |}.

(** [df[name] = series] for a label the frame does not have yet: a new
    column on the right. *)
Definition assign {A B : Type} (df : Frame A) (name : str) (series : list B)
  : Frame (A * B) :=
  {| columns := columns df ++ [name];
     index := index df;
     rows := combine (rows df) series |}.

(** [df.reset_index(drop=True)]. *)
Definition reset_index_drop {A : Type} (df : Frame A) : Frame A :=
  {| columns := columns df;
     index := seq 0 (List.length (rows df));
     rows := rows df |}.

(** [df.index = df.index + k]. *)
Definition shift_index {A : Type} (k : nat) (df : Frame A) : Frame A :=
  {| columns := columns df;
     index := map (fun i => i + k) (index df);
     rows := rows df |}.

(** [df.reset_index(inplace=True)]: the old index becomes the first column,
    labelled [index]. *)
Definition reset_index {A : Type} (df : Frame A) : Frame (nat * A) :=
  {| columns := lit "index" :: columns df;
     index := seq 0 (List.length (rows df));
     rows := combine (index df) (rows df) |}.

(** [df.rename(columns={old: new}, inplace=True)]. *)
Definition rename {A : Type} (old new : str) (df : Frame A) : Frame A :=
  {| columns := map (fun c => if str_eqb c old then new else c) (columns df);
     index := index df;
     rows := rows df |}.

(** ** [collections.Counter] *)

(** A [dict] keeps its keys in insertion order. *)
Definition Counter_t := list (str * nat).

(** [self[elem] = self.get(elem, 0) + 1]. *)
Fixpoint count_elem (elem : str) (d : Counter_t) : Counter_t :=
  match d with
  | [] => [(elem, 1)]
  | (k, v) :: d' =>
      if str_eqb k elem then (k, v + 1) :: d' else (k, v) :: count_elem elem d'
  end.

(** [Counter(words)]: one update per element, from the left. *)
Definition Counter (words : list str) : Counter_t :=
  fold_left (fun d w => count_elem w d) words [].

(** [sum(xs)]. *)
Definition sum (xs : list nat) : nat := fold_left Nat.add xs 0.

(** ** [get_word_stats] *)

(** The table after line 85; its columns are Rank, Word, Frequency and
    % of Text, in this order. *)
Definition RankedRow : Type := nat * (str * nat * str).

Definition Rank (r : RankedRow) : nat := fst r.
Definition Word (r : RankedRow) : str := fst (fst (snd r)).
Definition Frequency (r : RankedRow) : nat := snd (fst (snd r)).
Definition Percent (r : RankedRow) : str := snd (snd r).

(** One element of
    [(df['Frequency'] / total_words * 100).round(2).astype(str) + ' %']. *)
Definition percent_of_text (frequency total_words : nat) : str :=
  let x := (Float64.of_Z (Z.of_nat frequency)
            / Float64.of_Z (Z.of_nat total_words)
            * Float64.of_Z 100)%float in
  Float64.repr (Float64.round2 x) ++ lit " %".

Section Aggregator.

(** [sort_values(by=..., ascending=False)] runs an unstable quicksort
    (numpy's default); what is known of it is that it permutes the rows
    and leaves them in descending order of the key. *)
Variable sort_desc : forall A : Type, (A -> nat) -> list A -> list A.

(** [df.sort_values(by='Frequency', ascending=False)] on a frame whose
    rows carry the frequency as [key]: rows move with their index. *)
Definition sort_values {A : Type} (key : A -> nat) (df : Frame A) : Frame A :=
  let sorted := sort_desc (nat * A)%type (fun ir => key (snd ir))
                          (combine (index df) (rows df)) in
  {| columns := columns df;
     index := map fst sorted;
     rows := map snd sorted |}.

(** The function as written:
<<
  word_freq = Counter(words)
  total_words = sum(word_freq.values())
  df = pd.DataFrame(word_freq.items(), columns=['Word', 'Frequency'])
  df['% of Text'] = (df['Frequency'] / total_words * 100).round(2).astype(str) + ' %'
  df = df.sort_values(by='Frequency', ascending=False).reset_index(drop=True)
  df.index = df.index + 1
  df.reset_index(inplace=True)
  df.rename(columns={'index': 'Rank'}, inplace=True)
  return df, word_freq
>> *)
Definition get_word_stats (words : list str) : Frame RankedRow * Counter_t :=
  let word_freq := Counter words in
  let total_words := sum (map snd word_freq) in
  let df := DataFrame word_freq [lit "Word"; lit "Frequency"] in
  let df := assign df (lit "% of Text")
              (map (fun f => percent_of_text f total_words) (map snd (rows df))) in
  let df := reset_index_drop (sort_values (fun r => snd (fst r)) df) in
  let df := shift_index 1 df in
  let df := reset_index df in
  let df := rename (lit "index") (lit "Rank") df in
  (df, word_freq).

End Aggregator.

(** A sort that meets the description, used to run the model: insertion
    from the right, which keeps equal keys in their original order. *)
Fixpoint insert_desc {A : Type} (key : A -> nat) (x : A) (l : list A) : list A :=
  match l with
  | [] => [x]
  | y :: l' => if key x <? key y then y :: insert_desc key x l' else x :: l
  end.

Definition stable_sort_desc (A : Type) (key : A -> nat) (l : list A) : list A :=
  fold_right (insert_desc key) [] l.

(** ** Exceptions *)

Inductive exn :=
| RequestException
| UnicodeEncodeError
| UnicodeDecodeError
| TypeError
| KeyError.

(** A call either returns or raises. *)
Inductive result (A : Type) :=
| Return (a : A)
| Raise (e : exn).
Arguments Return {A} a.
Arguments Raise {A} e.

Definition bind {A B : Type} (r : result A) (k : A -> result B) : result B :=
  match r with
  | Return a => k a
  | Raise e => Raise e
  end.

Notation "x <- r ;; k" := (bind r (fun x => k))
  (at level 61, r at next level, right associativity).

(** ** Bytes: [str.encode()] and [bytes.decode()] *)

Definition byte := N.
Definition bytes := list byte.

Module UTF8.

Local Open Scope N_scope.

(** One code point, as the strict UTF-8 codec writes it; a surrogate or a
    value past U+10FFFF has no encoding. *)
Definition encode_char (c : char) : option bytes :=
  if c <? 128 then Some [c]
  else if c <? 2048 then
    Some [N.lor 192 (N.shiftr c 6); N.lor 128 (N.land c 63)]
  else if c <? 65536 then
    if (55296 <=? c) && (c <=? 57343) then None
    else Some [N.lor 224 (N.shiftr c 12);
               N.lor 128 (N.land (N.shiftr c 6) 63);
               N.lor 128 (N.land c 63)]
  else if c <? 1114112 then
    Some [N.lor 240 (N.shiftr c 18);
          N.lor 128 (N.land (N.shiftr c 12) 63);
          N.lor 128 (N.land (N.shiftr c 6) 63);
          N.lor 128 (N.land c 63)]
  else None.

(** [s.encode()]: [UnicodeEncodeError] on the first code point that has
    no encoding. *)
Fixpoint encode (s : str) : result bytes :=
  match s with
  | [] => Return []
  | c :: rest =>
      match encode_char c with
      | Some bs => tail <- encode rest ;; Return (bs ++ tail)
      | None => Raise UnicodeEncodeError
      end
  end.

Definition is_cont (b : byte) : bool := (128 <=? b) && (b <=? 191).
Definition cont (acc : N) (b : byte) : N := N.lor (N.shiftl acc 6) (N.land b 63).

(** [b.decode()]: strict, so overlong forms, surrogates and stray
    continuation bytes raise [UnicodeDecodeError]. *)
Fixpoint decode (bs : bytes) : result str :=
  match bs with
  | [] => Return []
  | b0 :: rest =>
      if b0 <? 128 then tail <- decode rest ;; Return (b0 :: tail)
      else if (194 <=? b0) && (b0 <=? 223) then
        match rest with
        | b1 :: rest1 =>
            if is_cont b1 then
              tail <- decode rest1 ;; Return (cont (N.land b0 31) b1 :: tail)
            else Raise UnicodeDecodeError
        | _ => Raise UnicodeDecodeError
        end
      else if (224 <=? b0) && (b0 <=? 239) then
        match rest with
        | b1 :: b2 :: rest2 =>
            let c := cont (cont (N.land b0 15) b1) b2 in
            if is_cont b1 && is_cont b2 && (2048 <=? c)
               && negb ((55296 <=? c) && (c <=? 57343)) then
              tail <- decode rest2 ;; Return (c :: tail)
            else Raise UnicodeDecodeError
        | _ => Raise UnicodeDecodeError
        end
      else if (240 <=? b0) && (b0 <=? 244) then
        match rest with
        | b1 :: b2 :: b3 :: rest3 =>
            let c := cont (cont (cont (N.land b0 7) b1) b2) b3 in
            if is_cont b1 && is_cont b2 && is_cont b3
               && (65536 <=? c) && (c <? 1114112) then
              tail <- decode rest3 ;; Return (c :: tail)
            else Raise UnicodeDecodeError
        | _ => Raise UnicodeDecodeError
        end
      else Raise UnicodeDecodeError
  end.

End UTF8.

(** ** [base64] *)

Module Base64.

Local Open Scope N_scope.

Definition alphabet : bytes :=
  lit "ABCDEFGHIJKLMNOPQRSTUVWXYZabcdefghijklmnopqrstuvwxyz0123456789+/".

Definition pad : byte := 61.

Definition table (i : N) : byte := nth (N.to_nat i) alphabet 0.

Definition sextet (n : N) (shift : N) : byte := table (N.land (N.shiftr n shift) 63).

(** [base64.b64encode(bs)]: every three octets give four characters; a
    last group of one or two octets is filled with [=]. *)
Fixpoint b64encode (bs : bytes) : bytes :=
  match bs with
  | [] => []
  | [b0] =>
      let n := N.shiftl b0 16 in
      [sextet n 18; sextet n 12; pad; pad]
  | [b0; b1] =>
      let n := N.lor (N.shiftl b0 16) (N.shiftl b1 8) in
      [sextet n 18; sextet n 12; sextet n 6; pad]
  | b0 :: b1 :: b2 :: rest =>
      let n := N.lor (N.lor (N.shiftl b0 16) (N.shiftl b1 8)) b2 in
      [sextet n 18; sextet n 12; sextet n 6; sextet n 0] ++ b64encode rest
  end.

(** Modelled from the spec: the decoding side of the export payload, which
    the module leaves to whoever receives the link.  The inverse of the
    table: the position of a character in the alphabet. *)
Fixpoint position (c : byte) (l : bytes) (i : N) : option N :=
  match l with
  | [] => None
  | x :: l' => if x =? c then Some i else position c l' (i + 1)
  end.

Definition value (c : byte) : option N := position c alphabet 0.

Definition octet (n : N) (shift : N) : byte := N.land (N.shiftr n shift) 255.

(** Modelled from the spec: [base64.b64decode], the decoder of the payload:
    groups of four characters, padding in the last group only. *)
Fixpoint b64decode (s : bytes) : option bytes :=
  match s with
  | [] => Some []
  | c0 :: c1 :: c2 :: c3 :: rest =>
      match value c0, value c1 with
      | Some v0, Some v1 =>
          let hi := N.lor (N.shiftl v0 18) (N.shiftl v1 12) in
          if (c2 =? pad) && (c3 =? pad) then
            match rest with
            | [] => Some [octet hi 16]
            | _ => None
            end
          else
            match value c2 with
            | Some v2 =>
                let mid := N.lor hi (N.shiftl v2 6) in
                if c3 =? pad then
                  match rest with
                  | [] => Some [octet mid 16; octet mid 8]
                  | _ => None
                  end
                else
                  match value c3, b64decode rest with
                  | Some v3, Some tail =>
                      let n := N.lor mid v3 in
                      Some (octet n 16 :: octet n 8 :: octet n 0 :: tail)
                  | _, _ => None
                  end
            | None => None
            end
      | _, _ => None
      end
  | _ => None
  end.

End Base64.

(** ** [DataFrame.to_csv] *)

(** [os.linesep], the line terminator [to_csv] uses when none is given. *)
Inductive platform := Posix | Windows.

Definition linesep (os : platform) : str :=
  match os with
  | Posix => [10%N]
  | Windows => [13%N; 10%N]
  end.

Module CSV.

Local Open Scope N_scope.

Definition comma : char := 44.
Definition quote : char := 34.
Definition LF : char := 10.
Definition CR : char := 13.

(** The characters that make the writer quote a field ([QUOTE_MINIMAL]):
    the delimiter, the quote character, and the line breaks. *)
Definition special (c : char) : bool :=
  (c =? comma) || (c =? quote) || (c =? LF) || (c =? CR).

Fixpoint double_quotes (s : str) : str :=
  match s with
  | [] => []
  | c :: rest =>
      if c =? quote then quote :: quote :: double_quotes rest
      else c :: double_quotes rest
  end.

Definition write_field (s : str) : str :=
  if existsb special s then quote :: double_quotes s ++ [quote] else s.

Definition write_row (os : platform) (fields : list str) : str :=
  join [comma] (map write_field fields) ++ linesep os.

(** Modelled from the spec: the reader of the exported payload (the module
    only writes).  It is the reader of RFC 4180 as Python's [csv.reader]
    implements it: fields split at commas, rows at CR, LF or CRLF, a field
    that starts with a quote runs to the closing quote, and a doubled
    quote inside it stands for one. *)
Inductive state :=
| StartRow            (* nothing of the row read yet *)
| AfterCR             (* a row just ended with CR *)
| StartField          (* a comma was just read *)
| InField             (* inside an unquoted field *)
| InQuoted            (* inside a quoted field *)
| QuoteInQuoted.      (* a quote was read inside a quoted field *)

Record reader := mkReader {
  done : list (list str);     (* finished rows, last first *)
  fields : list str;          (* finished fields of the row, last first *)
  field : str;                (* the field being read, last character first *)
  st : state
}.

Definition end_field (r : reader) : list str := rev (field r) :: fields r.

Definition end_row (r : reader) (s : state) : reader :=
  mkReader (rev (end_field r) :: done r) [] [] s.

Definition step (r : reader) (c : char) : option reader :=
  match st r with
  | StartRow | AfterCR =>
      if c =? LF then
        match st r with
        | AfterCR => Some (mkReader (done r) [] [] StartRow)
        | _ => Some (mkReader ([] :: done r) [] [] StartRow)
        end
      else if c =? CR then Some (mkReader ([] :: done r) [] [] AfterCR)
      else if c =? comma then Some (mkReader (done r) [[]] [] StartField)
      else if c =? quote then Some (mkReader (done r) [] [] InQuoted)
      else Some (mkReader (done r) [] [c] InField)
  | StartField | InField =>
      if c =? LF then Some (end_row r StartRow)
      else if c =? CR then Some (end_row r AfterCR)
      else if c =? comma then Some (mkReader (done r) (end_field r) [] StartField)
      else if (c =? quote) && negb (match st r with InField => true | _ => false end)
      then Some (mkReader (done r) (fields r) [] InQuoted)
      else Some (mkReader (done r) (fields r) (c :: field r) InField)
  | InQuoted =>
      if c =? quote then Some (mkReader (done r) (fields r) (field r) QuoteInQuoted)
      else Some (mkReader (done r) (fields r) (c :: field r) InQuoted)
  | QuoteInQuoted =>
      if c =? quote then Some (mkReader (done r) (fields r) (c :: field r) InQuoted)
      else if c =? LF then Some (end_row r StartRow)
      else if c =? CR then Some (end_row r AfterCR)
      else if c =? comma then Some (mkReader (done r) (end_field r) [] StartField)
      else None
  end.

Fixpoint run (r : reader) (s : str) : option reader :=
  match s with
  | [] => Some r
  | c :: rest =>
      match step r c with
      | Some r' => run r' rest
      | None => None
      end
  end.

Definition finish (r : reader) : option (list (list str)) :=
  match st r with
  | StartRow | AfterCR => Some (rev (done r))
  | StartField | InField | QuoteInQuoted => Some (rev (done (end_row r StartRow)))
  | InQuoted => None
  end.

Definition read (s : str) : option (list (list str)) :=
  match run (mkReader [] [] [] StartRow) s with
  | Some r => finish r
  | None => None
  end.

End CSV.

(** The cells of a row as [to_csv] writes them: integers through [str],
    strings as they are. *)
Definition cells (r : RankedRow) : list str :=
  [str_of_nat (Rank r); Word r; str_of_nat (Frequency r); Percent r].

(** [df.to_csv(index=False)]: the header, then one line per row. *)
Definition to_csv (os : platform) (df : Frame RankedRow) : str :=
  CSV.write_row os (columns df)
  ++ concat (map (fun r => CSV.write_row os (cells r)) (rows df)).

(** ** [download_button] *)

(** [b64 = base64.b64encode(csv.encode()).decode()]. *)
Definition export_payload (os : platform) (df : Frame RankedRow) : result str :=
  let csv := to_csv os df in
  encoded <- UTF8.encode csv ;;
  UTF8.decode (Base64.b64encode encoded).

(** The link of line 106, a literal around the payload. *)
Definition href (b64 : str) : str :=
  lit "<a href=" ++ [34%N] ++ lit "data:file/csv;base64," ++ b64 ++ [34%N]
  ++ lit " download=" ++ [34%N] ++ lit "word_list.csv" ++ [34%N] ++ lit ">"
  ++ [128229%N] ++ lit " Download CSV</a>".

(** What the function hands to [st.markdown]. *)
Definition download_button (os : platform) (df : Frame RankedRow) : result str :=
  b64 <- export_payload os df ;;
  Return (href b64).

(** Modelled from the spec: the reading back of an export, which the module
    does not contain: base64 decoding, UTF-8 decoding, CSV reading, and the
    Rank and Frequency cells read as integers. *)
Fixpoint uint_of_chars (s : str) : option Decimal.uint :=
  match s with
  | [] => Some Decimal.Nil
  | c :: rest =>
      match uint_of_chars rest with
      | None => None
      | Some u =>
          if (c =? 48)%N then Some (Decimal.D0 u)
          else if (c =? 49)%N then Some (Decimal.D1 u)
          else if (c =? 50)%N then Some (Decimal.D2 u)
          else if (c =? 51)%N then Some (Decimal.D3 u)
          else if (c =? 52)%N then Some (Decimal.D4 u)
          else if (c =? 53)%N then Some (Decimal.D5 u)
          else if (c =? 54)%N then Some (Decimal.D6 u)
          else if (c =? 55)%N then Some (Decimal.D7 u)
          else if (c =? 56)%N then Some (Decimal.D8 u)
          else if (c =? 57)%N then Some (Decimal.D9 u)
          else None
      end
  end.

(** Modelled from the spec: [int(s)] on a cell of digits. *)
Definition nat_of_str (s : str) : option nat :=
  match s with
  | [] => None
  | _ => option_map Nat.of_uint (uint_of_chars s)
  end.

(** Modelled from the spec: one line of the export read back as a row. *)
Definition read_row (fields : list str) : option RankedRow :=
  match fields with
  | [rank; word; frequency; percent] =>
      match nat_of_str rank, nat_of_str frequency with
      | Some r, Some f => Some (r, (word, f, percent))
      | _, _ => None
      end
  | _ => None
  end.

Fixpoint read_rows (lines : list (list str)) : option (list RankedRow) :=
  match lines with
  | [] => Some []
  | l :: rest =>
      match read_row l, read_rows rest with
      | Some r, Some rs => Some (r :: rs)
      | _, _ => None
      end
  end.

(** Modelled from the spec: the decoder of the round trip; it returns the
    header and the rows. *)
Definition decode_export (payload : str) : option (list str * list RankedRow) :=
  match UTF8.encode payload with
  | Return raw =>
      match Base64.b64decode raw with
      | Some data =>
          match UTF8.decode data with
          | Return text =>
              match CSV.read text with
              | Some (header :: body) =>
                  option_map (fun rs => (header, rs)) (read_rows body)
              | _ => None
              end
          | Raise _ => None
          end
      | None => None
      end
  | Raise _ => None
  end.

(** ** [get_book_url] and the two fetchers *)

(** What the module reads of a [requests.Response]. *)
Record Response := { ok : bool; text : str }.

Section Resolver.

(** [requests.get(url)]: a response, or a [RequestException] (no
    connection, time-out, invalid URL). *)
Variable requests_get : str -> result Response.

(** The parsed page is looked at through two calls only:
    [soup.find('li', class_='booklink')], which gives a tag or [None], and
    [tag.find('a')['href']], which raises when the tag has no link. *)
Variable Tag : Type.
Variable find_booklink : str -> option Tag.
Variable anchor_href : Tag -> result str.

(** [s.replace(' ', '+')]. *)
Definition replace_space_plus (s : str) : str :=
  map (fun c => if (c =? 32)%N then 43%N else c) s.

Definition search_url (book_name : str) : str :=
  lit "https://www.gutenberg.org/ebooks/search/?query="
  ++ replace_space_plus book_name.

(** The function as written: no [try] around the request.
<<
  search_url = f"https://www.gutenberg.org/ebooks/search/?query={...}"
  response = requests.get(search_url)
  soup = BeautifulSoup(response.text, 'html.parser')
  first_result = soup.find('li', class_='booklink')
  if first_result:
      book_link = first_result.find('a')['href']
      return f"https://www.gutenberg.org{book_link}.txt.utf-8"
  return None
>> *)
Definition get_book_url (book_name : str) : result (option str) :=
  response <- requests_get (search_url book_name) ;;
  match find_booklink (text response) with
  | Some first_result =>
      book_link <- anchor_href first_result ;;
      Return (Some (lit "https://www.gutenberg.org" ++ book_link
                    ++ lit ".txt.utf-8"))
  | None => Return None
  end.

(** [scrape_novel]: [raise_for_status] turns a bad status into a
    [RequestException], and the handler of that class returns [None]
    (after [st.error]). *)
Definition scrape_novel (url : str) : result (option str) :=
  let attempt :=
    response <- requests_get url ;;
    if ok response then Return (text response) else Raise RequestException in
  match attempt with
  | Return t => Return (Some t)
  | Raise RequestException => Return None
  | Raise e => Raise e
  end.

(** [fetch_text_from_url]: a bare [except] around the request. *)
Definition fetch_text_from_url (url : str) : result (option str) :=
  match requests_get url with
  | Return response => Return (if ok response then Some (text response) else None)
  | Raise _ => Return None
  end.

End Resolver.

Arguments get_book_url requests_get {Tag} find_booklink anchor_href book_name.

(** ** The Analyze section of the page (lines 178 to 213) *)

(** What a run of the section does, in order: the Streamlit elements it
    shows and the functions of the module it calls. *)
Inductive action :=
| Button (label : str)
| Warning (msg : str)
| Subheader (label : str)
| Markdown (body : str)
| Call_get_word_stats (words : list str)
| Call_extract_top_keywords (text : str)
| Call_plot_keywords (keywords : list (str * float))
| Call_plot_top_words (word_freq : Counter_t)
| Call_plot_wordcloud (word_freq : Counter_t)
| Call_AgGrid (df : Frame RankedRow)
| Call_download_button (df : Frame RankedRow).

Definition no_valid_words : str :=
  lit "Text is too short or contains no valid words.".

Definition is_Call_get_word_stats (a : action) : bool :=
  match a with
  | Call_get_word_stats _ => true
  | _ => false
  end.

Section Page.

Variable unicode_lower : str -> char -> str -> str.
Variable stopwords : list str.
Variable sort_desc : forall A : Type, (A -> nat) -> list A -> list A.

(** KeyBERT's model, outside the module. *)
Variable extract_top_keywords : str -> list (str * float).

(** [clicked] is what [st.button("Analyze Text")] returns in this run.
<<
  if text.strip():
      if st.button("Analyze Text"):
          words = clean_text(text)
          if not words:
              st.warning("Text is too short or contains no valid words.")
          else:
              df, word_freq = get_word_stats(words)
              top_keywords = extract_top_keywords(text)
              ...
              download_button(df)
>> *)
Definition analyze_section (text : str) (clicked : bool) : list action :=
  match strip text with
  | [] => []
  | _ :: _ =>
      Button (lit "Analyze Text") ::
      if clicked then
        let words := clean_text unicode_lower stopwords text in
        match words with
        | [] => [Warning no_valid_words]
        | _ :: _ =>
            let (df, word_freq) := get_word_stats sort_desc words in
            let top_keywords := extract_top_keywords text in
            [ Call_get_word_stats words;
              Call_extract_top_keywords text;
              Subheader (128273%N :: lit " Top 5 Keywords");
              Call_plot_keywords top_keywords;
              Subheader (128202%N :: lit " Top 15 Most Frequent Words");
              Call_plot_top_words word_freq;
              Subheader (9729%N :: lit " Word Cloud");
              Call_plot_wordcloud word_freq;
              Subheader (128203%N :: lit " Full Word List (Paginated)");
              Call_AgGrid df;
              Markdown (lit "### " ++ 128190%N :: lit " Download Options:");
              Call_download_button df ]
        end
      else []
  end.

End Page.

(** ** The text normalizer as the specification words it *)

Section NormalizerSpec.

Variable unicode_lower : str -> char -> str -> str.
Variable stopwords : list str.

Definition is_latin_letter (c : char) : bool :=
  Unicode.is_ascii_lower c || Unicode.is_ascii_upper c.

(** Step 2: every character that is not a Latin letter or whitespace is
    removed. *)
Definition keep_letters_and_space (s : str) : str :=
  filter (fun c => is_latin_letter c || Unicode.isspace c) s.

(** Step 3: the maximal runs of characters between whitespace, read in
    one pass with the run in progress ([cur], last character first). *)
Definition flush (cur : str) : list str :=
  match cur with
  | [] => []
  | _ => [rev cur]
  end.

Fixpoint whitespace_runs (cur : str) (s : str) : list str :=
  match s with
  | [] => flush cur
  | c :: rest =>
      if Unicode.isspace c then flush cur ++ whitespace_runs [] rest
      else whitespace_runs (c :: cur) rest
  end.

(** Step 4: tokens of the stopword set are left out. *)
Definition str_eq_dec : forall a b : str, {a = b} + {a <> b} :=
  list_eq_dec N.eq_dec.

Definition drop_stopwords (ws : list str) : list str :=
  filter (fun w => if in_dec str_eq_dec w stopwords then false else true) ws.

(** Modelled from the spec: section 4.2, steps (1) to (4). *)
Definition clean_text_spec (text : str) : list str :=
  drop_stopwords
    (whitespace_runs []
       (keep_letters_and_space (str_lower unicode_lower text))).

End NormalizerSpec.

(** A lowercasing table for the examples: Latin-1 capitals, the dotted
    capital I (two code points in lower case), the Kelvin sign, and capital
    sigma, final or not by what follows it. *)
Definition sample_lower (before : str) (c : char) (after : str) : str :=
  if (Unicode.in_range 192 222 c && negb (c =? 215))%N then [(c + 32)%N]
  else if (c =? 304)%N then [105%N; 775%N]
  else if (c =? 8490)%N then [107%N]
  else if (c =? 931)%N then
    match after with
    | d :: _ => if Unicode.isspace d then [962%N] else [963%N]
    | [] => [962%N]
    end
  else [c].

(** The English list of the NLTK stopwords corpus. *)
Definition english_stopwords : list str :=
  map lit
    [ "i"; "me"; "my"; "myself"; "we"; "our"; "ours"; "ourselves"; "you";
      "you're"; "you've"; "you'll"; "you'd"; "your"; "yours"; "yourself";
      "yourselves"; "he"; "him"; "his"; "himself"; "she"; "she's"; "her";
      "hers"; "herself"; "it"; "it's"; "its"; "itself"; "they"; "them";
      "their"; "theirs"; "themselves"; "what"; "which"; "who"; "whom";
      "this"; "that"; "that'll"; "these"; "those"; "am"; "is"; "are"; "was";
      "were"; "be"; "been"; "being"; "have"; "has"; "had"; "having"; "do";
      "does"; "did"; "doing"; "a"; "an"; "the"; "and"; "but"; "if"; "or";
      "because"; "as"; "until"; "while"; "of"; "at"; "by"; "for"; "with";
      "about"; "against"; "between"; "into"; "through"; "during"; "before";
      "after"; "above"; "below"; "to"; "from"; "up"; "down"; "in"; "out";
      "on"; "off"; "over"; "under"; "again"; "further"; "then"; "once";
      "here"; "there"; "when"; "where"; "why"; "how"; "all"; "any"; "both";
      "each"; "few"; "more"; "most"; "other"; "some"; "such"; "no"; "nor";
      "not"; "only"; "own"; "same"; "so"; "than"; "too"; "very"; "s"; "t";
      "can"; "will"; "just"; "don"; "don't"; "should"; "should've"; "now";
      "d"; "ll"; "m"; "o"; "re"; "ve"; "y"; "ain"; "aren"; "aren't";
      "couldn"; "couldn't"; "didn"; "didn't"; "doesn"; "doesn't"; "hadn";
      "hadn't"; "hasn"; "hasn't"; "haven"; "haven't"; "isn"; "isn't"; "ma";
      "mightn"; "mightn't"; "mustn"; "mustn't"; "needn"; "needn't"; "shan";
      "shan't"; "shouldn"; "shouldn't"; "wasn"; "wasn't"; "weren";
      "weren't"; "won"; "won't"; "wouldn"; "wouldn't" ]%string.

(** The sentence of the specification's example. *)
Definition the_cat_sat : str := lit "The cat sat on the mat. The cat ran.".

(** ** Predicates and data of the statements *)

(** A word as [split] returns it: not empty, free of whitespace, and made
    of characters that satisfy [R]. *)
Definition word_of (R : char -> Prop) (w : str) : Prop :=
  w <> [] /\ Forall (fun c => Unicode.isspace c = false /\ R c) w.

(** [d[w]] on a [Counter]: the count of a key, zero for a missing one. *)
Fixpoint lookup (w : str) (d : Counter_t) : nat :=
  match d with
  | [] => 0
  | (k, v) :: d' => if str_eqb k w then v else lookup w d'
  end.

(** The rows before sorting and ranking: one per counter entry, with its
    percentage of the [List.length words] tokens. *)
Definition unranked (words : list str) : list (str * nat * str) :=
  map (fun wc => (wc, percent_of_text (snd wc) (List.length words))) (Counter words).

(** An octet. *)
Definition is_octet (b : byte) : Prop := (b < 256)%N.

(** A character the CSV writer never quotes for. *)
Definition safe (c : char) : Prop := CSV.special c = false.

(** A reader state from which a field starts: the start of a row, or after
    a comma. *)
Definition field_start (st : CSV.state) (fs : list str) : Prop :=
  st = CSV.StartField \/ (st = CSV.StartRow /\ fs = []).

(** An ASCII character other than comma, quote and the line breaks; the
    letters [clean_text] leaves are such. *)
Definition plainb (c : char) : bool := (c <? 128)%N && negb (CSV.special c).
Definition plain (c : char) : Prop := plainb c = true.

(** The column labels of the ranked table. *)
Definition header : list str :=
  [lit "Rank"; lit "Word"; lit "Frequency"; lit "% of Text"].

(** The tokens and the rows of the specification's example. *)
Definition cat_tokens : list str :=
  [lit "cat"; lit "sat"; lit "mat"; lit "cat"; lit "ran"].

Definition cat_rows : list (str * nat * str) :=
  [ (lit "cat", 2, lit "40.0 %"); (lit "sat", 1, lit "20.0 %");
    (lit "mat", 1, lit "20.0 %"); (lit "ran", 1, lit "20.0 %") ].

(** No connection: every request raises. *)
Definition offline (url : str) : result Response := Raise RequestException.

(** A catalogue that answers every search with the same page, a page
    being reduced to the link of its first result (none when empty). *)
Definition one_page (page : str) (url : str) : result Response :=
  Return {| ok := true; text := page |}.

Definition first_link (page : str) : option str :=
  match page with
  | [] => None
  | _ => Some page
  end.

(** A text with capitals inside and outside ASCII, a dotted capital I, a
    Kelvin sign, a capital sigma, digits and three kinds of whitespace. *)
Definition mixed_text : str :=
  [304; 8490; 32; 201; 65; 931; 66; 160; 8195; 67; 49; 68; 10; 84; 72; 69]%N.

(** A text of lowercase letters and spaces only. *)
Definition clean_sentence : str := lit "the cat sat on the mat  the cat ran ".

(** ** The rest of the module *)

(** Exceptions the remaining functions meet, besides those of [exn]: a
    method looked up on [None], a tuple unpacked from too few values, a
    document PyMuPDF cannot open. *)
Inductive exception :=
| Known (e : exn)
| AttributeError
| ValueError
| FileDataError.

Inductive outcome (A : Type) :=
| Ok (a : A)
| Fail (e : exception).
Arguments Ok {A} a.
Arguments Fail {A} e.

(** *** [plot_top_words] *)

(** [word_freq.most_common(n)] is [heapq.nlargest(n, items, key=count)],
    that is [sorted(items, key=count, reverse=True)[:n]]: a stable sort, so
    entries of equal count stay in the order of the dictionary. *)
Definition most_common (n : nat) (word_freq : Counter_t) : list (str * nat) :=
  firstn n (stable_sort_desc (str * nat) snd word_freq).

(** [words, counts = zip( *common)]: the unpacking needs exactly two values,
    and [zip] of no argument yields none. *)
Definition unzip_pairs (common : list (str * nat)) : outcome (list str * list nat) :=
  match common with
  | [] => Fail ValueError
  | _ :: _ => Ok (map fst common, map snd common)
  end.

(** The bars the function hands to [ax.bar], words and heights:
<<
  common = word_freq.most_common(top_n)
  words, counts = zip( *common)
  ...
  ax.bar(words, counts, color='skyblue')
>> *)
Definition plot_top_words (word_freq : Counter_t) (top_n : nat)
  : outcome (list str * list nat) :=
  let common := most_common top_n word_freq in
  unzip_pairs common.

(** The distinct words of a list in the order of their first occurrence,
    [seen] being those met before. *)
Fixpoint first_seen (seen : list str) (words : list str) : list str :=
  match words with
  | [] => []
  | w :: rest =>
      if str_in w seen then first_seen seen rest
      else w :: first_seen (seen ++ [w]) rest
  end.

(** *** [extract_text_from_pdf] *)

Section Pdf.

(** [fitz.open(stream=..., filetype="pdf")] gives the pages of the document
    or raises; [page.get_text()] gives the text of a page. *)
Variable Page : Type.
Variable fitz_open : bytes -> option (list Page).
Variable get_text : Page -> str.

(** The function as written, on the bytes [pdf_file.read()] returns:
<<
  text = ""
  doc = fitz.open(stream=pdf_file.read(), filetype="pdf")
  for page in doc:
      text += page.get_text()
  return text
>> *)
Definition extract_text_from_pdf (pdf_file : bytes) : outcome str :=
  match fitz_open pdf_file with
  | None => Fail FileDataError
  | Some doc => Ok (fold_left (fun text page => text ++ get_text page) doc [])
  end.

End Pdf.

Arguments extract_text_from_pdf {Page} fitz_open get_text pdf_file.

(** *** [st.cache_data] *)

(** The decorator keeps what the function returned, by argument: a call on
    an argument met before returns the kept value and does not run the
    function; a call that raises keeps nothing. *)
Definition Cache := list (str * option str).

Fixpoint cache_get (key : str) (c : Cache) : option (option str) :=
  match c with
  | [] => None
  | (k, v) :: c' => if str_eqb k key then Some v else cache_get key c'
  end.

Definition cache_data (f : str -> result (option str)) (c : Cache) (arg : str)
  : result (option str) * Cache :=
  match cache_get arg c with
  | Some v => (Return v, c)
  | None =>
      match f arg with
      | Return v => (Return v, (arg, v) :: c)
      | Raise e => (Raise e, c)
      end
  end.

(** *** The page (lines 126 to 213) *)

(** The options of [st.radio]. *)
Inductive input_method :=
| EnterNovelName
| UploadPDF
| PasteParagraph
| ProvideURL.

(** What the widgets return in one run of the script. *)
Record Inputs := {
  in_method : input_method;       (* st.radio *)
  in_book_name : str;             (* st.text_input, first branch *)
  in_fetch : bool;                (* st.button("Fetch & Analyze") *)
  in_upload : option bytes;       (* st.file_uploader, read *)
  in_pasted : str;                (* st.text_area *)
  in_url : str;                   (* st.text_input, last branch *)
  in_analyze : bool               (* st.button("Analyze Text") *)
}.

(** The values the name [text] and the session key [text] take: a string,
    or [None] (what [scrape_novel] returns on a failure). *)
Inductive pyvalue :=
| PyNone
| PyStr (s : str).

(** [if v:] on such a value. *)
Definition truthy (v : pyvalue) : bool :=
  match v with
  | PyStr (_ :: _) => true
  | _ => false
  end.

Definition of_option (r : option str) : pyvalue :=
  match r with
  | Some t => PyStr t
  | None => PyNone
  end.

(** What outlives a run: [st.session_state] (its key [text], absent before
    the first run) and the two caches of the decorated fetchers. *)
Record State := {
  session : option pyvalue;
  novel_cache : Cache;
  url_cache : Cache
}.

(** What the script itself does in a run, in order: the calls of the
    module's functions, the messages it shows, and the Analyze section. *)
Inductive page_action :=
| Call_get_book_url (book_name : str)
| Call_scrape_novel (url : str)
| Call_fetch_text_from_url (url : str)
| Call_extract_text_from_pdf (pdf_file : bytes)
| St_success (msg : str)
| St_error (msg : str)
| Analysis (a : action).

Record Run := {
  after : State;
  shown : list page_action;
  raised : option exception
}.

Definition book_fetched : str := lit "Book successfully fetched!".
Definition novel_failed : str := 10060%N :: lit " Failed to fetch the novel.".
Definition book_not_found : str := 10060%N :: lit " Book not found.".
Definition url_failed : str := 10060%N :: lit " Failed to fetch or unsupported URL.".

Section PageRun.

Variable requests_get : str -> result Response.
Variable Tag : Type.
Variable find_booklink : str -> option Tag.
Variable anchor_href : Tag -> result str.
Variable Page : Type.
Variable fitz_open : bytes -> option (list Page).
Variable get_text : Page -> str.
Variable unicode_lower : str -> char -> str -> str.
Variable stopwords : list str.
Variable sort_desc : forall A : Type, (A -> nat) -> list A -> list A.
Variable extract_top_keywords : str -> list (str * float).

(** Lines 178 to 213 on the value of [text]: [text.strip()] raises on
    [None]. *)
Definition analyze (st : State) (before : list page_action) (text : pyvalue)
           (clicked : bool) : Run :=
  match text with
  | PyNone => {| after := st; shown := before; raised := Some AttributeError |}
  | PyStr t =>
      {| after := st;
         shown := before
                  ++ map Analysis
                       (analyze_section unicode_lower stopwords sort_desc
                          extract_top_keywords t clicked);
         raised := None |}
  end.

(** One run of the script.
<<
  if "text" not in st.session_state:
      st.session_state.text = ""
  input_method = st.radio(...)
  text = ""
  if input_method == "Enter Novel Name":
      book_name = st.text_input(...)
      if st.button("Fetch & Analyze"):
          book_url = get_book_url(book_name)
          if book_url:
              st.session_state.text = scrape_novel(book_url)
              if st.session_state.text:
                  st.success("Book successfully fetched!")
              else:
                  st.error("... Failed to fetch the novel.")
          else:
              st.error("... Book not found.")
      text = st.session_state.get("text", "")
  elif input_method == "Upload PDF":
      uploaded_file = st.file_uploader(...)
      if uploaded_file is not None:
          text = extract_text_from_pdf(uploaded_file)
  elif input_method == "Paste Paragraph":
      text = st.text_area(...)
  elif input_method == "Provide URL":
      url = st.text_input(...)
      if st.button("Fetch & Analyze"):
          fetched = fetch_text_from_url(url)
          if fetched:
              st.session_state.text = fetched
          else:
              st.error("... Failed to fetch or unsupported URL.")
      text = st.session_state.get("text", "")
  if text.strip(): ...
>> *)
Definition page_run (st : State) (i : Inputs) : Run :=
  let current := match session st with
                 | None => PyStr []
                 | Some v => v
                 end in
  let st0 := {| session := Some current;
                novel_cache := novel_cache st;
                url_cache := url_cache st |} in
  match in_method i with
  | EnterNovelName =>
      if in_fetch i then
        let called := [Call_get_book_url (in_book_name i)] in
        match get_book_url requests_get find_booklink anchor_href (in_book_name i) with
        | Raise e => {| after := st0; shown := called; raised := Some (Known e) |}
        | Return None =>
            analyze st0 (called ++ [St_error book_not_found]) current (in_analyze i)
        | Return (Some book_url) =>
            let called := called ++ [Call_scrape_novel book_url] in
            match cache_data (scrape_novel requests_get) (novel_cache st) book_url with
            | (Raise e, c) =>
                {| after := {| session := Some current; novel_cache := c;
                               url_cache := url_cache st |};
                   shown := called; raised := Some (Known e) |}
            | (Return r, c) =>
                let v := of_option r in
                let st1 := {| session := Some v; novel_cache := c;
                              url_cache := url_cache st |} in
                analyze st1
                  (called ++ [if truthy v then St_success book_fetched
                              else St_error novel_failed])
                  v (in_analyze i)
            end
        end
      else analyze st0 [] current (in_analyze i)
  | UploadPDF =>
      match in_upload i with
      | None => analyze st0 [] (PyStr []) (in_analyze i)
      | Some pdf_file =>
          let called := [Call_extract_text_from_pdf pdf_file] in
          match extract_text_from_pdf fitz_open get_text pdf_file with
          | Fail e => {| after := st0; shown := called; raised := Some e |}
          | Ok t => analyze st0 called (PyStr t) (in_analyze i)
          end
      end
  | PasteParagraph => analyze st0 [] (PyStr (in_pasted i)) (in_analyze i)
  | ProvideURL =>
      if in_fetch i then
        let called := [Call_fetch_text_from_url (in_url i)] in
        match cache_data (fetch_text_from_url requests_get) (url_cache st) (in_url i) with
        | (Raise e, c) =>
            {| after := {| session := Some current; novel_cache := novel_cache st;
                           url_cache := c |};
               shown := called; raised := Some (Known e) |}
        | (Return fetched, c) =>
            let v := of_option fetched in
            if truthy v then
              analyze {| session := Some v; novel_cache := novel_cache st;
                         url_cache := c |}
                      called v (in_analyze i)
            else
              analyze {| session := Some current; novel_cache := novel_cache st;
                         url_cache := c |}
                      (called ++ [St_error url_failed]) current (in_analyze i)
        end
      else analyze st0 [] current (in_analyze i)
  end.

End PageRun.

Arguments page_run requests_get {Tag} find_booklink anchor_href {Page}
  fitz_open get_text unicode_lower stopwords sort_desc extract_top_keywords st i.

(** ** Predicates and data of the statements on the rest of the module *)

(** A stopword entry made of Latin letters only. *)
Definition letters_only (w : str) : bool := forallb is_latin_letter w.

(** A character of a base64 text. *)
Definition base64_char (c : char) : Prop :=
  In c Base64.alphabet \/ c = Base64.pad.

(** The characters that end an attribute value or open markup: the two
    quotes, the ampersand, the angle brackets and the space. *)
Definition html_special (c : char) : bool :=
  existsb (N.eqb c) [32; 34; 38; 39; 60; 62]%N.

(** A code point that UTF-8 has no encoding for. *)
Definition unencodable (c : char) : Prop := UTF8.encode_char c = None.

Fixpoint starts_with (prefix s : str) : bool :=
  match prefix, s with
  | [], _ => true
  | p :: prefix', c :: s' => char_eqb p c && starts_with prefix' s'
  | _ :: _, [] => false
  end.

(** A network on which the catalogue answers every search with the same
    page while nothing else can be fetched. *)
Definition catalogue_only (page : str) (url : str) : result Response :=
  if starts_with (lit "https://www.gutenberg.org/ebooks/search/") url
  then Return {| ok := true; text := page |}
  else Raise RequestException.

(** A PDF reader for the examples: a file is the text of its pages, one
    page per line feed; the empty file is not a document. *)
Fixpoint lines_of (cur : str) (bs : bytes) : list str :=
  match bs with
  | [] => [cur]
  | b :: bs' => if (b =? 10)%N then cur :: lines_of [] bs'
                else lines_of (cur ++ [b]) bs'
  end.

Definition sample_fitz_open (pdf_file : bytes) : option (list str) :=
  match pdf_file with
  | [] => None
  | _ :: _ => Some (lines_of [] pdf_file)
  end.

(** The page on the sample lowercasing, the NLTK list, the stable sort and
    a keyword model that finds nothing. *)
Definition sample_page (requests_get : str -> result Response)
           (st : State) (i : Inputs) : Run :=
  page_run requests_get first_link (fun tag => Return tag)
           sample_fitz_open (fun page : str => page)
           sample_lower english_stopwords stable_sort_desc (fun _ => []) st i.

Definition fresh : State :=
  {| session := None; novel_cache := []; url_cache := [] |}.

Definition broken : State :=
  {| session := Some PyNone;
     novel_cache := [(lit "https://www.gutenberg.org/ebooks/158.txt.utf-8", None)];
     url_cache := [] |}.

Definition with_text (t : str) : State :=
  {| session := Some (PyStr t); novel_cache := []; url_cache := [] |}.

Definition inputs (method : input_method) (fetch : bool) : Inputs :=
  {| in_method := method; in_book_name := lit "Emma"; in_fetch := fetch;
     in_upload := Some (lit "the cat"); in_pasted := lit "The cat sat.";
     in_url := lit "https://example.org/a.txt"; in_analyze := true |}.

(* ================================================================== *)
(** * Part II: properties                                              *)
(* ================================================================== *)

(** ** Characters and strings *)

Ltac unbool :=
  repeat rewrite ?andb_true_iff, ?orb_true_iff, ?negb_true_iff,
    ?andb_false_iff, ?orb_false_iff, ?negb_false_iff,
    ?N.leb_le, ?N.ltb_lt, ?N.eqb_eq, ?N.leb_gt, ?N.ltb_ge, ?N.eqb_neq in *.

Lemma str_eqb_eq (a b : str) : str_eqb a b = true <-> a = b.
Proof.
  revert b; induction a as [|x a IH]; intros [|y b]; simpl; try easy.
  unfold char_eqb. rewrite andb_true_iff, N.eqb_eq, IH.
  split; [intros [-> ->]; reflexivity | intros [= -> ->]; auto].
Qed.

Lemma str_in_In (w : str) (ws : list str) : str_in w ws = true <-> In w ws.
Proof.
  unfold str_in. rewrite existsb_exists. split.
  - intros [x [Hin Heq]]. apply str_eqb_eq in Heq. now subst.
  - intros Hin. exists w. split; [assumption | now apply str_eqb_eq].
Qed.

Lemma split_eq (s : str) :
  split s = match skip_space s with
            | [] => []
            | c :: rest => (c :: fst (scan_word rest)) :: split (snd (scan_word rest))
            end.
Proof.
  funelim (split s);
    match goal with e : skip_space _ = _ |- _ => rewrite e end; reflexivity.
Qed.

Lemma isspace_not_letter (c : char) :
  Unicode.isspace c = true -> is_latin_letter c = false.
Proof.
  unfold Unicode.isspace, is_latin_letter, Unicode.is_ascii_lower,
    Unicode.is_ascii_upper, Unicode.in_range.
  intros H. unbool. lia.
Qed.

(** The pattern [[^a-zA-Z\s]] matches what is neither letter nor space. *)
Lemma not_letter_or_space_spec (c : char) :
  class_matches not_letter_or_space c
  = negb (is_latin_letter c || Unicode.isspace c).
Proof.
  unfold class_matches, not_letter_or_space, is_latin_letter. simpl.
  unfold Unicode.is_ascii_lower, Unicode.is_ascii_upper.
  rewrite orb_false_r, orb_assoc. reflexivity.
Qed.

Lemma re_sub_keep (s : str) :
  re_sub_empty not_letter_or_space s = keep_letters_and_space s.
Proof.
  unfold re_sub_empty, keep_letters_and_space. apply filter_ext.
  intros c. rewrite not_letter_or_space_spec. apply negb_involutive.
Qed.

(** *** [str.split()] and the runs between whitespace *)

Lemma skip_space_spec (s : str) :
  skip_space s = [] \/ exists c rest, skip_space s = c :: rest /\ Unicode.isspace c = false.
Proof.
  induction s as [|c rest IH]; simpl; [now left|].
  destruct (Unicode.isspace c) eqn:E; [exact IH|].
  right. now exists c, rest.
Qed.

Lemma whitespace_runs_scan (cur s : str) :
  whitespace_runs cur s
  = match rev cur ++ fst (scan_word s) with
    | [] => []
    | w => [w]
    end ++ whitespace_runs [] (snd (scan_word s)).
Proof.
  revert cur. induction s as [|c rest IH]; intros cur; simpl.
  - rewrite !app_nil_r. unfold flush. destruct cur as [|x cur]; [reflexivity|].
    simpl. destruct (rev cur ++ [x]) eqn:E; [|reflexivity].
    now apply app_eq_nil in E.
  - destruct (Unicode.isspace c) eqn:E; simpl.
    + rewrite E, app_nil_r. unfold flush. destruct cur as [|x cur]; [reflexivity|].
      simpl. destruct (rev cur ++ [x]) eqn:E'; [|reflexivity].
      now apply app_eq_nil in E'.
    + rewrite IH. destruct (scan_word rest) as [w tail]. simpl.
      rewrite <- app_assoc. reflexivity.
Qed.

Lemma whitespace_runs_skip (s : str) :
  whitespace_runs [] s = whitespace_runs [] (skip_space s).
Proof.
  induction s as [|c rest IH]; simpl; [reflexivity|].
  destruct (Unicode.isspace c) eqn:E; simpl; [exact IH|].
  now rewrite E.
Qed.

(** The scanning loop and the one-pass reading give the same words. *)
Lemma split_whitespace_runs (s : str) : split s = whitespace_runs [] s.
Proof.
  remember (List.length s) as n eqn:Hn. revert s Hn.
  induction n as [n IH] using lt_wf_ind. intros s Hn.
  rewrite split_eq, whitespace_runs_skip.
  pose proof (skip_space_length s) as Hlen.
  destruct (skip_space_spec s) as [E | (c & rest & E & Hc)];
    rewrite E in *; [reflexivity|].
  simpl in Hlen. simpl. rewrite Hc.
  rewrite whitespace_runs_scan. simpl.
  pose proof (scan_word_length rest) as Hscan.
  f_equal. apply (IH (List.length (snd (scan_word rest)))); [lia | reflexivity].
Qed.

Lemma flush_words (R : char -> Prop) (cur : str) :
  Forall (fun c => Unicode.isspace c = false /\ R c) cur ->
  Forall (word_of R) (flush cur).
Proof.
  intros H. destruct cur as [|x cur]; simpl; constructor; [|constructor].
  split.
  - intros E. now apply app_eq_nil in E.
  - apply Forall_app. split.
    + apply Forall_rev. now inversion H.
    + constructor; [now inversion H | constructor].
Qed.

Lemma whitespace_runs_words (R : char -> Prop) (s cur : str) :
  Forall (fun c => Unicode.isspace c = false /\ R c) cur ->
  Forall R s ->
  Forall (word_of R) (whitespace_runs cur s).
Proof.
  revert cur. induction s as [|c rest IH]; intros cur Hcur Hs; simpl.
  - now apply flush_words.
  - inversion Hs as [|? ? Hc Hrest]; subst.
    destruct (Unicode.isspace c) eqn:E.
    + apply Forall_app. split; [now apply flush_words | apply IH; auto].
    + apply IH; auto.
Qed.

Lemma split_words (R : char -> Prop) (s : str) :
  Forall R s -> Forall (word_of R) (split s).
Proof.
  intros H. rewrite split_whitespace_runs. apply whitespace_runs_words; auto.
Qed.

Lemma whitespace_runs_word (w s cur : str) :
  Forall (fun c => Unicode.isspace c = false) w ->
  whitespace_runs cur (w ++ s) = whitespace_runs (rev w ++ cur) s.
Proof.
  revert cur. induction w as [|c w IH]; intros cur H; simpl; [reflexivity|].
  inversion H as [|? ? Hc Hw]; subst. rewrite Hc, IH by assumption.
  now rewrite <- app_assoc.
Qed.

(** Words joined by single spaces split back into the same words. *)
Lemma split_join_space (R : char -> Prop) (ws : list str) :
  Forall (word_of R) ws -> split (join [32%N] ws) = ws.
Proof.
  rewrite split_whitespace_runs.
  induction ws as [|w ws IH]; intros H; [reflexivity|].
  inversion H as [|? ? [Hne Hw] Hws]; subst.
  assert (Hw' : Forall (fun c => Unicode.isspace c = false) w)
    by (eapply Forall_impl; [|exact Hw]; now intros c [Hc _]).
  assert (Hflush : flush (rev w) = [w]).
  { unfold flush. rewrite rev_involutive.
    destruct (rev w) eqn:E; [|reflexivity].
    apply (f_equal (@rev char)) in E. rewrite rev_involutive in E. now subst. }
  destruct ws as [|w' ws'].
  - simpl. rewrite <- (app_nil_r w) at 1. rewrite whitespace_runs_word by assumption.
    simpl. now rewrite app_nil_r.
  - change (join [32%N] (w :: w' :: ws')) with (w ++ 32%N :: join [32%N] (w' :: ws')).
    rewrite whitespace_runs_word by assumption.
    rewrite app_nil_r.
    change (whitespace_runs (rev w) (32%N :: join [32%N] (w' :: ws')))
      with (flush (rev w) ++ whitespace_runs [] (join [32%N] (w' :: ws'))).
    rewrite Hflush, IH by assumption. reflexivity.
Qed.

Lemma skip_space_all (s : str) :
  skip_space s = [] <-> Forall (fun c => Unicode.isspace c = true) s.
Proof.
  induction s as [|c rest IH]; simpl; [now split|].
  destruct (Unicode.isspace c) eqn:E.
  - rewrite IH. split; [now constructor | now inversion 1].
  - split; [discriminate | inversion 1; congruence].
Qed.

(** [text.strip()] is empty exactly on a text of whitespace only. *)
Lemma strip_empty (s : str) :
  strip s = [] <-> Forall (fun c => Unicode.isspace c = true) s.
Proof.
  unfold strip. split.
  - intros H. apply skip_space_all.
    apply (f_equal (@rev char)) in H. rewrite rev_involutive in H. simpl in H.
    apply skip_space_all in H. apply Forall_rev in H. rewrite rev_involutive in H.
    destruct (skip_space_spec s) as [E | (c & rest & E & Hc)]; [assumption|].
    rewrite E in H. inversion H; congruence.
  - intros H. apply skip_space_all in H. now rewrite H.
Qed.

(** ** The normalizer *)

Section NormalizerFacts.

Variable unicode_lower : str -> char -> str -> str.
Variable stopwords : list str.

Local Abbreviation lower_from := (lower_from unicode_lower).
Local Abbreviation str_lower := (str_lower unicode_lower).
Local Abbreviation clean_text := (clean_text unicode_lower stopwords).

Lemma lower_from_Forall (P : char -> Prop) (s : str) :
  (forall before c after, In c s -> Forall P (lower_char unicode_lower before c after)) ->
  forall before, Forall P (lower_from before s).
Proof.
  induction s as [|c rest IH]; intros H before; simpl; [constructor|].
  apply Forall_app. split.
  - apply H. now left.
  - apply IH. intros b d a Hd. apply H. now right.
Qed.

Lemma lower_from_fixed (s : str) :
  Forall (fun c => Unicode.is_ascii_upper c = false
                   /\ (Unicode.is_ascii c = true \/ Unicode.isspace c = true)) s ->
  forall before, lower_from before s = s.
Proof.
  induction 1 as [|c rest [Hup Hc] _ IH]; intros before; simpl; [reflexivity|].
  unfold lower_char. rewrite Hup.
  replace (Unicode.is_ascii c || Unicode.isspace c) with true
    by (destruct Hc as [-> | ->]; now rewrite ?orb_true_r).
  simpl. now rewrite IH.
Qed.

Lemma filter_stopwords (ws : list str) :
  filter (fun word => negb (str_in word stopwords)) ws = drop_stopwords stopwords ws.
Proof.
  unfold drop_stopwords. apply filter_ext. intros w.
  destruct (in_dec str_eq_dec w stopwords) as [Hin | Hout].
  - apply str_in_In in Hin. now rewrite Hin.
  - destruct (str_in w stopwords) eqn:E; [|reflexivity].
    apply str_in_In in E. contradiction.
Qed.

Lemma clean_text_eq_spec (text : str) :
  clean_text text = clean_text_spec unicode_lower stopwords text.
Proof.
  unfold clean_text, clean_text_spec.
  now rewrite filter_stopwords, split_whitespace_runs, re_sub_keep.
Qed.

(** After [lower()] and the substitution only letters and whitespace are
    left, so every word is made of letters. *)
Lemma clean_text_words (R : char -> Prop) (text : str) :
  Forall R (str_lower text) ->
  Forall (fun w => word_of (fun c => is_latin_letter c = true /\ R c) w
                   /\ ~ In w stopwords)
         (clean_text text).
Proof.
  intros HR. unfold clean_text. apply Forall_forall. intros w Hw.
  apply filter_In in Hw. destruct Hw as [Hw Hstop]. split.
  - assert (Hkept : Forall (fun c => (is_latin_letter c || Unicode.isspace c = true) /\ R c)
              (re_sub_empty not_letter_or_space (str_lower text))).
    { rewrite re_sub_keep. unfold keep_letters_and_space.
      apply Forall_forall. intros c Hc. apply filter_In in Hc.
      destruct Hc as [Hc Hkeep]. split; [assumption|].
      rewrite Forall_forall in HR. now apply HR. }
    apply split_words in Hkept. rewrite Forall_forall in Hkept.
    destruct (Hkept w Hw) as [Hne Hall]. split; [assumption|].
    eapply Forall_impl; [|exact Hall].
    intros c (Hsp & Hkeep & Hc). rewrite Hsp, orb_false_r in Hkeep. auto.
  - intros Hin. apply str_in_In in Hin. rewrite Hin in Hstop. discriminate.
Qed.

(** C7: on a text of lowercase Latin letters and spaces only, cleaning the
    space-joined result of [clean_text] gives the same token list again. *)
Theorem clean_text_idempotent (x : str) :
  Forall (fun c => Unicode.is_ascii_lower c = true \/ c = 32%N) x ->
  clean_text (join [32%N] (clean_text x)) = clean_text x.
Proof.
  intros Hx.
  assert (Hfix : forall s,
    Forall (fun c => Unicode.is_ascii_lower c = true \/ c = 32%N) s ->
    str_lower s = s).
  { intros s Hs. apply lower_from_fixed. eapply Forall_impl; [|exact Hs].
    intros c Hc. unfold Unicode.is_ascii_lower, Unicode.is_ascii_upper,
      Unicode.is_ascii, Unicode.in_range in *.
    split; [destruct Hc | left; destruct Hc]; unbool; lia. }
  pose proof (clean_text_words (fun c => Unicode.is_ascii_lower c = true \/ c = 32%N) x) as Hwords.
  rewrite (Hfix x Hx) in Hwords. specialize (Hwords Hx).
  set (toks := clean_text x) in *.
  assert (Hjoin : Forall (fun c => Unicode.is_ascii_lower c = true \/ c = 32%N)
                         (join [32%N] toks)).
  { clearbody toks. induction Hwords as [|w ws [[_ Hw] _] _ IH]; [constructor|].
    assert (Hw' : Forall (fun c => Unicode.is_ascii_lower c = true \/ c = 32%N) w)
      by (eapply Forall_impl; [|exact Hw]; now intros c (_ & _ & Hc)).
    destruct ws as [|w' ws']; [exact Hw'|].
    change (join [32%N] (w :: w' :: ws')) with (w ++ 32%N :: join [32%N] (w' :: ws')).
    apply Forall_app. split; [exact Hw'|]. constructor; [now right | exact IH]. }
  unfold clean_text at 1. rewrite (Hfix _ Hjoin).
  rewrite re_sub_keep. unfold keep_letters_and_space.
  rewrite (forallb_filter_id (fun c => is_latin_letter c || Unicode.isspace c)).
  2:{ apply forallb_forall. intros c Hc.
      rewrite Forall_forall in Hjoin. destruct (Hjoin c Hc) as [Hl | ->].
      - unfold is_latin_letter. now rewrite Hl.
      - reflexivity. }
  rewrite (split_join_space (fun c => is_latin_letter c = true
             /\ (Unicode.is_ascii_lower c = true \/ c = 32%N))).
  2:{ eapply Forall_impl; [|exact Hwords]. now intros w [Hw _]. }
  apply forallb_filter_id. apply forallb_forall. intros w Hw.
  rewrite Forall_forall in Hwords. destruct (Hwords w Hw) as [_ Hout].
  destruct (str_in w stopwords) eqn:E; [|reflexivity].
  apply str_in_In in E. contradiction.
Qed.

(** A text of whitespace only has no token. *)
Lemma clean_text_blank (text : str) :
  Forall (fun c => Unicode.isspace c = true) text -> clean_text text = [].
Proof.
  intros H. unfold clean_text.
  change (str_lower text) with (lower_from [] text).
  rewrite (lower_from_fixed text).
  2:{ eapply Forall_impl; [|exact H]. intros c Hc. split; [|now right].
      apply isspace_not_letter in Hc. unfold is_latin_letter in Hc.
      now apply orb_false_iff in Hc. }
  rewrite re_sub_keep. unfold keep_letters_and_space.
  rewrite (forallb_filter_id (fun c => is_latin_letter c || Unicode.isspace c)).
  2:{ apply forallb_forall. intros c Hc. rewrite Forall_forall in H.
      now rewrite (H c Hc), orb_true_r. }
  rewrite split_eq. apply skip_space_all in H. now rewrite H.
Qed.

(** What is known of the interpreter's table: no code point outside ASCII
    has an ASCII capital in its lower case. *)
Hypothesis unicode_lower_no_capital :
  forall before c after,
    Unicode.is_ascii c = false ->
    Forall (fun d => Unicode.is_ascii_upper d = false)
           (unicode_lower before c after).

Lemma str_lower_no_capital (text : str) :
  Forall (fun d => Unicode.is_ascii_upper d = false) (str_lower text).
Proof.
  apply lower_from_Forall. intros before c after _. unfold lower_char.
  destruct (Unicode.is_ascii_upper c) eqn:Hup.
  - constructor; [|constructor].
    unfold Unicode.is_ascii_upper, Unicode.in_range in *. unbool. lia.
  - destruct (Unicode.is_ascii c) eqn:Hascii; simpl.
    + now repeat constructor.
    + destruct (Unicode.isspace c) eqn:Hsp.
      * now repeat constructor.
      * now apply unicode_lower_no_capital.
Qed.

(** C3: [clean_text] returns the token list of section 4.2 (lowercase,
    delete what is neither Latin letter nor whitespace, split on
    whitespace runs, leave out the stopwords), and each token is a
    non-empty word of lowercase Latin letters that is no stopword. *)
Theorem clean_text_refines_spec (text : str) :
  clean_text text = clean_text_spec unicode_lower stopwords text
  /\ Forall (fun w => w <> []
                     /\ Forall (fun c => Unicode.is_ascii_lower c = true) w
                     /\ ~ In w stopwords)
            (clean_text text).
Proof.
  split; [apply clean_text_eq_spec|].
  eapply Forall_impl; [|apply (clean_text_words _ text (str_lower_no_capital text))].
  intros w [[Hne Hw] Hout]. repeat split; try assumption.
  eapply Forall_impl; [|exact Hw].
  intros c (_ & Hletter & Hup). unfold is_latin_letter in Hletter.
  rewrite Hup, orb_false_r in Hletter. exact Hletter.
Qed.

End NormalizerFacts.

(** ** The counter *)

Lemma str_eqb_refl (a : str) : str_eqb a a = true.
Proof. now apply str_eqb_eq. Qed.

Lemma str_eqb_neq (a b : str) : a <> b -> str_eqb a b = false.
Proof.
  intros H. destruct (str_eqb a b) eqn:E; [|reflexivity].
  apply str_eqb_eq in E. contradiction.
Qed.

Lemma sum_shift (xs : list nat) (a : nat) : fold_left Nat.add xs a = a + sum xs.
Proof.
  unfold sum. revert a. induction xs as [|x xs IH]; intros a; simpl; [lia|].
  rewrite (IH (a + x)), (IH x). lia.
Qed.

Lemma sum_cons (x : nat) (xs : list nat) : sum (x :: xs) = x + sum xs.
Proof. unfold sum at 1. simpl. apply sum_shift. Qed.

Lemma count_elem_sum (w : str) (d : Counter_t) :
  sum (map snd (count_elem w d)) = S (sum (map snd d)).
Proof.
  induction d as [|[k v] d IH]; simpl; [reflexivity|].
  destruct (str_eqb k w); simpl; rewrite !sum_cons; [lia|].
  rewrite IH. lia.
Qed.

Lemma count_elem_lookup (x w : str) (d : Counter_t) :
  lookup x (count_elem w d)
  = if str_eq_dec x w then S (lookup x d) else lookup x d.
Proof.
  induction d as [|[k v] d IH]; simpl.
  - destruct (str_eq_dec x w) as [-> | Hne].
    + now rewrite str_eqb_refl.
    + rewrite str_eqb_neq; auto.
  - destruct (str_eqb k w) eqn:Ekw; simpl.
    + apply str_eqb_eq in Ekw. subst k.
      destruct (str_eq_dec x w) as [-> | Hne].
      * rewrite str_eqb_refl. lia.
      * rewrite str_eqb_neq; auto.
    + destruct (str_eqb k x) eqn:Ekx; [|exact IH].
      apply str_eqb_eq in Ekx. subst k.
      destruct (str_eq_dec x w) as [-> | Hne]; [|reflexivity].
      rewrite str_eqb_refl in Ekw. discriminate.
Qed.

Lemma count_elem_keys (w : str) (d : Counter_t) :
  map fst (count_elem w d)
  = if in_dec str_eq_dec w (map fst d) then map fst d else map fst d ++ [w].
Proof.
  induction d as [|[k v] d IH]; simpl; [reflexivity|].
  destruct (str_eqb k w) eqn:Ekw; simpl.
  - apply str_eqb_eq in Ekw. subst k.
    destruct (str_eq_dec w w); [reflexivity | contradiction].
  - destruct (str_eq_dec k w) as [-> | Hne].
    + rewrite str_eqb_refl in Ekw. discriminate.
    + rewrite IH. destruct (in_dec str_eq_dec w (map fst d)); reflexivity.
Qed.

Lemma lookup_In (w : str) (c : nat) (d : Counter_t) :
  NoDup (map fst d) -> In (w, c) d -> lookup w d = c.
Proof.
  induction d as [|[k v] d IH]; simpl; [easy|].
  intros Hnd [[= -> ->] | Hin].
  - now rewrite str_eqb_refl.
  - inversion Hnd as [|? ? Hk Hd]; subst.
    rewrite str_eqb_neq; [now apply IH|].
    intros ->. apply Hk. now apply (in_map fst) in Hin.
Qed.

Section CounterFold.

Let step (d : Counter_t) (w : str) : Counter_t := count_elem w d.

Lemma fold_counter_sum (words : list str) (d : Counter_t) :
  sum (map snd (fold_left step words d)) = List.length words + sum (map snd d).
Proof.
  revert d. induction words as [|w words IH]; intros d; simpl; [reflexivity|].
  rewrite IH. unfold step. rewrite count_elem_sum. lia.
Qed.

Lemma fold_counter_lookup (x : str) (words : list str) (d : Counter_t) :
  lookup x (fold_left step words d) = count_occ str_eq_dec words x + lookup x d.
Proof.
  revert d. induction words as [|w words IH]; intros d; simpl; [reflexivity|].
  rewrite IH. unfold step. rewrite count_elem_lookup.
  destruct (str_eq_dec w x) as [-> | Hne].
  - destruct (str_eq_dec x x); [lia | contradiction].
  - destruct (str_eq_dec x w) as [-> | _]; [contradiction | reflexivity].
Qed.

Lemma fold_counter_keys (words : list str) (d : Counter_t) :
  NoDup (map fst d) ->
  NoDup (map fst (fold_left step words d))
  /\ forall x, In x (map fst (fold_left step words d))
               <-> In x words \/ In x (map fst d).
Proof.
  revert d. induction words as [|w words IH]; intros d Hnd; simpl.
  - split; [assumption | intros x; tauto].
  - assert (Hstep : NoDup (map fst (step d w))
                    /\ forall x, In x (map fst (step d w)) <-> x = w \/ In x (map fst d)).
    { unfold step. rewrite count_elem_keys.
      destruct (in_dec str_eq_dec w (map fst d)) as [Hin | Hout].
      - split; [assumption|]. intros x. split; [tauto|]. intros [-> | H]; assumption.
      - split.
        + apply NoDup_app; [assumption | repeat constructor; easy |].
          intros x Hx [<- | []]. contradiction.
        + intros x. rewrite in_app_iff. simpl. split; [intros [|[|[]]]; auto | intros [|]; auto]. }
    destruct Hstep as [Hnd' Hkeys]. destruct (IH _ Hnd') as [H1 H2].
    split; [assumption|]. intros x. rewrite H2, Hkeys. split.
    + intros [H | [-> | H]]; auto.
    + intros [[<- | H] | H]; auto.
Qed.

End CounterFold.

(** The keys of [Counter(words)] are the distinct words. *)
Lemma Counter_keys (words : list str) :
  NoDup (map fst (Counter words))
  /\ forall x, In x (map fst (Counter words)) <-> In x words.
Proof.
  destruct (fold_counter_keys words [] (NoDup_nil _)) as [H1 H2].
  split; [exact H1|]. intros x. rewrite (H2 x). simpl. tauto.
Qed.

(** Each key is counted as often as it occurs. *)
Lemma Counter_count (words : list str) (w : str) (c : nat) :
  In (w, c) (Counter words) -> c = count_occ str_eq_dec words w.
Proof.
  intros Hin. destruct (Counter_keys words) as [Hnd _].
  rewrite <- (lookup_In w c (Counter words) Hnd Hin).
  unfold Counter. rewrite fold_counter_lookup. simpl. lia.
Qed.

(** The number of entries is the number of distinct words. *)
Lemma Counter_length (words : list str) :
  List.length (Counter words) = List.length (nodup str_eq_dec words).
Proof.
  destruct (Counter_keys words) as [Hnd Hkeys].
  rewrite <- (length_map fst (Counter words)).
  apply Permutation_length, NoDup_Permutation;
    [assumption | apply NoDup_nodup |].
  intros x. rewrite Hkeys, nodup_In. tauto.
Qed.

Lemma Counter_sum (words : list str) :
  sum (map snd (Counter words)) = List.length words.
Proof. unfold Counter. rewrite fold_counter_sum. simpl. unfold sum. simpl. lia. Qed.

(** ** The frequency aggregator *)

Lemma combine_map_self {A B : Type} (f : A -> B) (l : list A) :
  combine l (map f l) = map (fun x => (x, f x)) l.
Proof. induction l as [|x l IH]; simpl; [reflexivity | now rewrite IH]. Qed.

Lemma map_fst_combine {A B : Type} (l : list A) (l' : list B) :
  List.length l = List.length l' -> map fst (combine l l') = l.
Proof.
  revert l'. induction l as [|x l IH]; intros [|y l'] H; simpl in *;
    try discriminate; [reflexivity|]. f_equal. apply IH. lia.
Qed.

Lemma map_snd_combine {A B : Type} (l : list A) (l' : list B) :
  List.length l = List.length l' -> map snd (combine l l') = l'.
Proof.
  revert l'. induction l as [|x l IH]; intros [|y l'] H; simpl in *;
    try discriminate; [reflexivity|]. f_equal. apply IH. lia.
Qed.

Lemma Sorted_map {A B : Type} (R : B -> B -> Prop) (f : A -> B) (l : list A) :
  Sorted (fun a b => R (f a) (f b)) l -> Sorted R (map f l).
Proof.
  induction 1 as [|x l Hs IH Hhd]; simpl; constructor; [assumption|].
  destruct Hhd; simpl; constructor; assumption.
Qed.

Lemma StronglySorted_map_inv {A B : Type} (R : B -> B -> Prop) (f : A -> B) (l : list A) :
  StronglySorted R (map f l) -> StronglySorted (fun a b => R (f a) (f b)) l.
Proof.
  induction l as [|x l IH]; simpl; intros H; [constructor|].
  inversion H as [|? ? Hs Hall]; subst. constructor; [now apply IH|].
  rewrite Forall_map in Hall. exact Hall.
Qed.

Section AggregatorFacts.

Variable sort_desc : forall A : Type, (A -> nat) -> list A -> list A.

Hypothesis sort_desc_perm :
  forall (A : Type) (key : A -> nat) (l : list A),
    Permutation l (sort_desc A key l).

Hypothesis sort_desc_sorted :
  forall (A : Type) (key : A -> nat) (l : list A),
    Sorted (fun a b => key b <= key a) (sort_desc A key l).

Local Abbreviation word_stats := (get_word_stats sort_desc).

(** The table is the sorted rows numbered from 1. *)
Lemma get_word_stats_rows (words : list str) :
  exists body,
    rows (fst (word_stats words)) = combine (seq 1 (List.length body)) body
    /\ Permutation (unranked words) body
    /\ Sorted (fun a b => snd (fst b) <= snd (fst a)) body.
Proof.
  unfold get_word_stats. simpl.
  set (rows2 := combine (Counter words) _).
  set (sorted := sort_desc _ _ _).
  exists (map snd sorted). repeat split.
  - f_equal. rewrite <- seq_shift. apply map_ext. intros i. lia.
  - assert (Hrows2 : rows2 = unranked words).
    { unfold rows2, unranked. rewrite Counter_sum, map_map.
      apply combine_map_self. }
    rewrite <- Hrows2.
    rewrite <- (map_snd_combine (seq 0 (List.length rows2)) rows2) at 1
      by apply length_seq.
    apply Permutation_map. unfold sorted.
    replace (List.length (Counter words)) with (List.length rows2).
    + apply sort_desc_perm.
    + unfold rows2. rewrite length_combine, !length_map. lia.
  - apply Sorted_map. apply sort_desc_sorted.
Qed.

Lemma ge_sorted_strongly (l : list (str * nat * str)) :
  Sorted (fun a b => snd (fst b) <= snd (fst a)) l ->
  StronglySorted (fun a b => snd (fst b) <= snd (fst a)) l.
Proof. apply Sorted_StronglySorted. intros a b c Hab Hbc. lia. Qed.

(** C1: the Rank column is 1, 2, ..., n with n the number of distinct
    tokens, and the Frequency column never increases down the table. *)
Theorem ranks_contiguous_frequency_nonincreasing (words : list str) :
  let df := fst (word_stats words) in
  map Rank (rows df) = seq 1 (List.length (nodup str_eq_dec words))
  /\ StronglySorted (fun a b => Frequency a >= Frequency b) (rows df).
Proof.
  destruct (get_word_stats_rows words) as (body & Hrows & Hperm & Hsorted).
  cbv zeta. rewrite Hrows. split.
  - change Rank with (@fst nat (str * nat * str)). unfold RankedRow.
    rewrite map_fst_combine by apply length_seq.
    f_equal. rewrite <- (Permutation_length Hperm).
    unfold unranked. rewrite length_map. apply Counter_length.
  - apply StronglySorted_map_inv with (f := snd)
      (R := fun a b => snd (fst b) <= snd (fst a)).
    rewrite map_snd_combine by apply length_seq.
    now apply ge_sorted_strongly.
Qed.

(** The content of a row: each row holds a distinct
    token, its number of occurrences, and the percentage string computed
    from that number and the number of tokens. *)
Lemma get_word_stats_row (words : list str) (r : RankedRow) :
  In r (rows (fst (word_stats words))) ->
  In (Word r) words
  /\ Frequency r = count_occ str_eq_dec words (Word r)
  /\ Percent r = percent_of_text (Frequency r) (List.length words).
Proof.
  destruct (get_word_stats_rows words) as (body & Hrows & Hperm & _).
  rewrite Hrows. intros Hin. destruct r as [rank b].
  apply in_combine_r in Hin.
  apply (Permutation_in _ (Permutation_sym Hperm)) in Hin.
  unfold unranked in Hin. apply in_map_iff in Hin.
  destruct Hin as ([w c] & [= <-] & Hwc).
  unfold Word, Frequency, Percent. simpl. repeat split.
  - apply (Counter_keys words). now apply (in_map fst) in Hwc.
  - now apply Counter_count.
Qed.

(** C10: every entry of the percentage column is [repr] of the binary64
    value [round(frequency / total * 100, 2)] followed by a space and a
    percent sign, where the frequency is that of the row and the total is
    the number of tokens; [repr] writes the shortest decimal, so a 40%
    share reads 40.0 and not 40.00. *)
Theorem percent_column_format (words : list str) :
  (forall r, In r (rows (fst (word_stats words))) ->
     Frequency r = count_occ str_eq_dec words (Word r)
     /\ Percent r
     = Float64.repr
         (Float64.round2
            (Float64.of_Z (Z.of_nat (Frequency r))
             / Float64.of_Z (Z.of_nat (List.length words))
             * Float64.of_Z 100)%float)
       ++ lit " %")
  /\ percent_of_text 2 5 = lit "40.0 %"
  /\ percent_of_text 1 3 = lit "33.33 %"
  /\ percent_of_text 7 7 = lit "100.0 %"
  /\ percent_of_text 23 160 = lit "14.37 %".
Proof.
  split; [|repeat split; vm_compute; reflexivity].
  intros r Hr. apply get_word_stats_row in Hr.
  destruct Hr as (_ & Hf & Hp). split; assumption.
Qed.

(** The Word column lists the distinct tokens, each once, and the Frequency
    of a row is the number of occurrences of its word among the tokens. *)
Theorem table_rows_are_the_distinct_tokens (words : list str) :
  let rs := rows (fst (word_stats words)) in
  NoDup (map Word rs)
  /\ (forall w, In w (map Word rs) <-> In w words)
  /\ (forall r, In r rs -> Frequency r = count_occ str_eq_dec words (Word r)).
Proof.
  cbv zeta. destruct (get_word_stats_rows words) as (body & Hrows & Hperm & _).
  assert (Hwords : Permutation (map fst (Counter words))
                     (map Word (rows (fst (word_stats words))))).
  { rewrite Hrows.
    replace (map Word (combine (seq 1 (List.length body)) body))
      with (map (fun b : str * nat * str => fst (fst b)) body).
    - rewrite <- Hperm. unfold unranked. rewrite map_map. simpl. reflexivity.
    - rewrite <- (map_snd_combine (seq 1 (List.length body)) body) at 1
        by apply length_seq.
      rewrite map_map. reflexivity. }
  destruct (Counter_keys words) as [Hnd Hkeys]. repeat split.
  - now apply (Permutation_NoDup Hwords).
  - intros H. apply Hkeys. now apply (Permutation_in _ (Permutation_sym Hwords)).
  - intros H. apply (Permutation_in _ Hwords). now apply Hkeys.
  - intros r Hr. now apply get_word_stats_row in Hr.
Qed.

(** C9: on the empty token list the aggregator returns a table with its
    four columns and no row, and an empty counter; the total is zero and
    no percentage is computed. *)
Theorem get_word_stats_empty :
  word_stats []
  = ({| columns := [lit "Rank"; lit "Word"; lit "Frequency"; lit "% of Text"];
        index := [];
        rows := [] |}, [])
  /\ sum (map snd (snd (word_stats []))) = 0.
Proof.
  split; [|reflexivity].
  unfold get_word_stats, sort_values. simpl.
  pose proof (sort_desc_perm (nat * (str * nat * str))%type
                (fun ir => snd (fst (snd ir))) []) as H.
  apply Permutation_nil in H. rewrite H. reflexivity.
Qed.

End AggregatorFacts.

(** C2: the counts of the frequency table add up to the number of tokens. *)
Theorem counts_sum_to_length
  (sort_desc : forall A : Type, (A -> nat) -> list A -> list A) (words : list str) :
  sum (map snd (snd (get_word_stats sort_desc words))) = List.length words.
Proof. simpl. apply Counter_sum. Qed.

(** ** A sort that meets the description *)

Lemma insert_desc_perm {A : Type} (key : A -> nat) (x : A) (l : list A) :
  Permutation (x :: l) (insert_desc key x l).
Proof.
  induction l as [|y l IH]; simpl; [reflexivity|].
  destruct (key x <? key y); [|reflexivity].
  rewrite perm_swap. now constructor.
Qed.

Lemma insert_desc_sorted {A : Type} (key : A -> nat) (x : A) (l : list A) :
  Sorted (fun a b => key b <= key a) l ->
  Sorted (fun a b => key b <= key a) (insert_desc key x l).
Proof.
  induction 1 as [|y l Hs IH Hhd]; simpl; [repeat constructor|].
  destruct (key x <? key y) eqn:E.
  - apply Nat.ltb_lt in E. constructor; [assumption|].
    destruct Hhd as [|z l Hz]; simpl.
    + constructor. lia.
    + destruct (key x <? key z); constructor; [assumption | lia].
  - apply Nat.ltb_ge in E. repeat constructor; assumption.
Qed.

Lemma stable_sort_desc_perm (A : Type) (key : A -> nat) (l : list A) :
  Permutation l (stable_sort_desc A key l).
Proof.
  induction l as [|x l IH]; simpl; [constructor|].
  rewrite <- insert_desc_perm. now constructor.
Qed.

Lemma stable_sort_desc_sorted (A : Type) (key : A -> nat) (l : list A) :
  Sorted (fun a b => key b <= key a) (stable_sort_desc A key l).
Proof.
  induction l as [|x l IH]; simpl; [constructor | now apply insert_desc_sorted].
Qed.

(** ** The example of the specification *)

Lemma cat_unranked : unranked cat_tokens = cat_rows.
Proof. vm_compute. reflexivity. Qed.

Section Example.

Variable unicode_lower : str -> char -> str -> str.
Variable stopwords : list str.
Variable sort_desc : forall A : Type, (A -> nat) -> list A -> list A.

Hypothesis sort_desc_perm :
  forall (A : Type) (key : A -> nat) (l : list A),
    Permutation l (sort_desc A key l).

Hypothesis sort_desc_sorted :
  forall (A : Type) (key : A -> nat) (l : list A),
    Sorted (fun a b => key b <= key a) (sort_desc A key l).

Hypothesis stop_the : In (lit "the") stopwords.
Hypothesis stop_on : In (lit "on") stopwords.
Hypothesis keep_cat : ~ In (lit "cat") stopwords.
Hypothesis keep_sat : ~ In (lit "sat") stopwords.
Hypothesis keep_mat : ~ In (lit "mat") stopwords.
Hypothesis keep_ran : ~ In (lit "ran") stopwords.

Lemma cat_clean : clean_text unicode_lower stopwords the_cat_sat = cat_tokens.
Proof.
  unfold clean_text.
  replace (split (re_sub_empty not_letter_or_space (str_lower unicode_lower the_cat_sat)))
    with [lit "the"; lit "cat"; lit "sat"; lit "on"; lit "the"; lit "mat";
          lit "the"; lit "cat"; lit "ran"]
    by (vm_compute; reflexivity).
  apply str_in_In in stop_the, stop_on.
  assert (Hkeep : forall w, ~ In w stopwords -> str_in w stopwords = false).
  { intros w H. destruct (str_in w stopwords) eqn:E; [|reflexivity].
    apply str_in_In in E. contradiction. }
  simpl. rewrite stop_the, stop_on, !Hkeep by assumption. reflexivity.
Qed.

(** C5: on the sentence of the example the normalizer gives
    cat, sat, mat, cat, ran; the frequency table is cat 2, sat 1, mat 1,
    ran 1; the rows carry 40.0 % and 20.0 %; and the row of rank 1 is
    cat. *)
Theorem the_cat_sat_example :
  let words := clean_text unicode_lower stopwords the_cat_sat in
  let (df, word_freq) := get_word_stats sort_desc words in
  words = cat_tokens
  /\ word_freq = [(lit "cat", 2); (lit "sat", 1); (lit "mat", 1); (lit "ran", 1)]
  /\ map Rank (rows df) = [1; 2; 3; 4]
  /\ Permutation (map snd (rows df)) cat_rows
  /\ hd_error (rows df) = Some (1, (lit "cat", 2, lit "40.0 %")).
Proof.
  cbv zeta. rewrite cat_clean.
  destruct (get_word_stats_rows sort_desc sort_desc_perm sort_desc_sorted cat_tokens)
    as (body & Hrows & Hperm & Hsorted).
  destruct (get_word_stats sort_desc cat_tokens) as [df word_freq] eqn:E.
  assert (Hfreq : word_freq = snd (get_word_stats sort_desc cat_tokens))
    by now rewrite E.
  simpl in Hrows. rewrite cat_unranked in Hperm.
  assert (Hlen : List.length body = 4)
    by now rewrite <- (Permutation_length Hperm).
  split; [reflexivity|].
  split; [rewrite Hfreq; reflexivity|].
  rewrite Hrows, Hlen.
  split; [|split].
  - change Rank with (@fst nat (str * nat * str)). unfold RankedRow.
    rewrite map_fst_combine; [reflexivity | now rewrite Hlen].
  - unfold RankedRow. rewrite map_snd_combine; [now symmetry | now rewrite Hlen].
  - destruct body as [|b body']; [discriminate|]. simpl. do 3 f_equal.
    apply Sorted_StronglySorted in Hsorted; [|intros x y z; lia].
    inversion Hsorted as [|? ? _ Hall]; subst.
    assert (Hcat : In (lit "cat", 2, lit "40.0 %") (b :: body'))
      by (apply (Permutation_in _ Hperm); now left).
    assert (Hb : In b cat_rows)
      by (apply (Permutation_in _ (Permutation_sym Hperm)); now left).
    destruct Hcat as [-> | Hin]; [reflexivity|].
    rewrite Forall_forall in Hall. specialize (Hall _ Hin). simpl in Hall.
    destruct Hb as [<- | [<- | [<- | [<- | []]]]]; simpl in Hall;
      [reflexivity | lia | lia | lia].
Qed.

End Example.

(** ** Base64 *)

Ltac nlia := zify; Z.to_euclidean_division_equations; lia.

(** [|] on two numbers with no bit in common is their sum. *)
Lemma lor_add (a b k : N) :
  (a mod 2 ^ k = 0 -> b < 2 ^ k -> N.lor a b = a + b)%N.
Proof.
  intros Ha Hb.
  assert (Hland : N.land a b = 0%N).
  { apply N.bits_inj. intros i. rewrite N.land_spec, N.bits_0.
    destruct (N.lt_ge_cases i k) as [Hlt | Hge].
    - rewrite <- (N.mod_pow2_bits_low a k i Hlt), Ha, N.bits_0. reflexivity.
    - rewrite <- (N.mod_small b (2 ^ k) Hb), (N.mod_pow2_bits_high b k i Hge).
      apply andb_false_r. }
  now rewrite <- (N.lxor_lor _ _ Hland), <- (N.add_nocarry_lxor _ _ Hland).
Qed.

Lemma sextet_eq (n s : N) :
  Base64.sextet n s = Base64.table ((n / 2 ^ s) mod 64)%N.
Proof.
  unfold Base64.sextet. rewrite N.shiftr_div_pow2.
  change 63%N with (N.ones 6). now rewrite N.land_ones.
Qed.

Lemma octet_eq (n s : N) : Base64.octet n s = ((n / 2 ^ s) mod 256)%N.
Proof.
  unfold Base64.octet. rewrite N.shiftr_div_pow2.
  change 255%N with (N.ones 8). now rewrite N.land_ones.
Qed.

Lemma below_64 (i : N) : (i < 64)%N -> In i (map N.of_nat (seq 0 64)).
Proof.
  intros H. rewrite <- (N2Nat.id i). apply in_map, in_seq. lia.
Qed.

(** The alphabet is ASCII, has no [=], and [value] inverts [table]. *)
Lemma table_value (i : N) :
  (i < 64)%N ->
  Base64.value (Base64.table i) = Some i
  /\ (Base64.table i =? Base64.pad)%N = false
  /\ (Base64.table i <? 128)%N = true.
Proof.
  intros H. apply below_64 in H. revert i H. apply Forall_forall.
  apply Forall_forall. intros i Hi.
  assert (Hall : forallb (fun i =>
            match Base64.value (Base64.table i) with
            | Some j => (j =? i)%N
            | None => false
            end
            && negb (Base64.table i =? Base64.pad)%N
            && (Base64.table i <? 128)%N) (map N.of_nat (seq 0 64)) = true)
    by (vm_compute; reflexivity).
  rewrite forallb_forall in Hall. specialize (Hall i Hi).
  apply andb_true_iff in Hall. destruct Hall as [Hall H3].
  apply andb_true_iff in Hall. destruct Hall as [H1 H2].
  destruct (Base64.value (Base64.table i)) as [j|]; [|discriminate].
  apply N.eqb_eq in H1. subst j. apply negb_true_iff in H2. auto.
Qed.

Lemma group3 (b0 b1 b2 : byte) :
  is_octet b0 -> is_octet b1 -> is_octet b2 ->
  N.lor (N.lor (N.shiftl b0 16) (N.shiftl b1 8)) b2
  = (b0 * 65536 + b1 * 256 + b2)%N.
Proof.
  unfold is_octet. intros H0 H1 H2. rewrite !N.shiftl_mul_pow2.
  change (2 ^ 16)%N with 65536%N. change (2 ^ 8)%N with 256%N.
  rewrite (lor_add (b0 * 65536) (b1 * 256) 16);
    [| change (2 ^ 16)%N with 65536%N; nlia
     | change (2 ^ 16)%N with 65536%N; nlia].
  apply (lor_add _ _ 8); change (2 ^ 8)%N with 256%N; nlia.
Qed.

Lemma group4 (v0 v1 v2 v3 : N) :
  (v0 < 64 -> v1 < 64 -> v2 < 64 -> v3 < 64 ->
   N.lor (N.lor (N.lor (N.shiftl v0 18) (N.shiftl v1 12)) (N.shiftl v2 6)) v3
   = v0 * 262144 + v1 * 4096 + v2 * 64 + v3)%N.
Proof.
  intros H0 H1 H2 H3. rewrite !N.shiftl_mul_pow2.
  change (2 ^ 18)%N with 262144%N. change (2 ^ 12)%N with 4096%N.
  change (2 ^ 6)%N with 64%N.
  rewrite (lor_add (v0 * 262144) (v1 * 4096) 18);
    [| change (2 ^ 18)%N with 262144%N; nlia
     | change (2 ^ 18)%N with 262144%N; nlia].
  rewrite (lor_add _ (v2 * 64) 12);
    [| change (2 ^ 12)%N with 4096%N; nlia
     | change (2 ^ 12)%N with 4096%N; nlia].
  apply (lor_add _ _ 6); change (2 ^ 6)%N with 64%N; nlia.
Qed.

Lemma list_ind3 {A : Type} (P : list A -> Prop) :
  P [] -> (forall a, P [a]) -> (forall a b, P [a; b]) ->
  (forall a b c l, P l -> P (a :: b :: c :: l)) ->
  forall l, P l.
Proof.
  intros H0 H1 H2 H3.
  fix IH 1. intros [|a [|b [|c l]]];
    [apply H0 | apply H1 | apply H2 | apply H3, IH].
Qed.

Lemma mod_64_lt (x : N) : (x mod 64 < 64)%N.
Proof. apply N.mod_lt. discriminate. Qed.

Lemma sextet_value (n s : N) :
  Base64.value (Base64.sextet n s) = Some ((n / 2 ^ s) mod 64)%N
  /\ (Base64.sextet n s =? Base64.pad)%N = false
  /\ (Base64.sextet n s <? 128)%N = true.
Proof. rewrite sextet_eq. apply table_value, mod_64_lt. Qed.

(** Decoding what [b64encode] wrote gives the octets back. *)
Lemma b64decode_b64encode (bs : bytes) :
  Forall is_octet bs -> Base64.b64decode (Base64.b64encode bs) = Some bs.
Proof.
  induction bs as [|b0|b0 b1|b0 b1 b2 rest IH] using list_ind3; intros Hbs.
  - reflexivity.
  - inversion Hbs as [|? ? H0 _]; subst. unfold is_octet in H0.
    cbn [Base64.b64encode Base64.b64decode].
    destruct (sextet_value (N.shiftl b0 16) 18) as (-> & _ & _).
    destruct (sextet_value (N.shiftl b0 16) 12) as (-> & _ & _).
    rewrite N.eqb_refl. cbn [andb]. do 2 f_equal.
    rewrite octet_eq, !N.shiftl_mul_pow2.
    change (2 ^ 18)%N with 262144%N. change (2 ^ 12)%N with 4096%N.
    change (2 ^ 16)%N with 65536%N.
    rewrite (lor_add _ _ 18);
      change (2 ^ 18)%N with 262144%N; nlia.
  - inversion Hbs as [|? ? H0 Hbs']; subst. inversion Hbs' as [|? ? H1 _]; subst.
    unfold is_octet in H0, H1.
    cbn [Base64.b64encode Base64.b64decode].
    set (n := N.lor (N.shiftl b0 16) (N.shiftl b1 8)).
    assert (Hn : n = (b0 * 65536 + b1 * 256)%N).
    { unfold n. rewrite !N.shiftl_mul_pow2.
      change (2 ^ 16)%N with 65536%N. change (2 ^ 8)%N with 256%N.
      apply (lor_add _ _ 16); change (2 ^ 16)%N with 65536%N; nlia. }
    destruct (sextet_value n 18) as (-> & _ & _).
    destruct (sextet_value n 12) as (-> & _ & _).
    destruct (sextet_value n 6) as (-> & -> & _).
    rewrite N.eqb_refl. cbn [andb].
    pose proof (group4 ((n / 2 ^ 18) mod 64) ((n / 2 ^ 12) mod 64)
                  ((n / 2 ^ 6) mod 64) 0
                  (mod_64_lt _) (mod_64_lt _) (mod_64_lt _) eq_refl) as Hg.
    rewrite N.lor_0_r in Hg. rewrite Hg, !octet_eq. clear Hg.
    change (2 ^ 18)%N with 262144%N. change (2 ^ 12)%N with 4096%N.
    change (2 ^ 6)%N with 64%N. change (2 ^ 16)%N with 65536%N.
    change (2 ^ 8)%N with 256%N.
    do 2 f_equal; [nlia | f_equal; nlia].
  - inversion Hbs as [|? ? H0 Hbs1]; subst. inversion Hbs1 as [|? ? H1 Hbs2]; subst.
    inversion Hbs2 as [|? ? H2 Hrest]; subst.
    cbn [Base64.b64encode Base64.b64decode app].
    rewrite (group3 b0 b1 b2 H0 H1 H2). unfold is_octet in H0, H1, H2.
    set (n := (b0 * 65536 + b1 * 256 + b2)%N).
    destruct (sextet_value n 18) as (-> & _ & _).
    destruct (sextet_value n 12) as (-> & _ & _).
    destruct (sextet_value n 6) as (-> & -> & _).
    destruct (sextet_value n 0) as (-> & -> & _).
    cbn [andb]. rewrite (IH Hrest).
    rewrite (group4 _ _ _ _ (mod_64_lt _) (mod_64_lt _) (mod_64_lt _) (mod_64_lt _)).
    rewrite !octet_eq.
    change (2 ^ 18)%N with 262144%N. change (2 ^ 12)%N with 4096%N.
    change (2 ^ 6)%N with 64%N. change (2 ^ 16)%N with 65536%N.
    change (2 ^ 8)%N with 256%N. change (2 ^ 0)%N with 1%N.
    subst n. do 2 f_equal; [nlia | f_equal; [nlia | f_equal; nlia]].
Qed.

Lemma b64encode_ascii (bs : bytes) :
  Forall (fun c => (c <? 128)%N = true) (Base64.b64encode bs).
Proof.
  induction bs as [|b0|b0 b1|b0 b1 b2 rest IH] using list_ind3;
    cbn [Base64.b64encode app];
    repeat (constructor; [first [apply sextet_value | reflexivity]|]);
    first [constructor | exact IH].
Qed.

(** ** UTF-8 on ASCII text *)

Lemma utf8_encode_ascii (s : str) :
  Forall (fun c => (c <? 128)%N = true) s -> UTF8.encode s = Return s.
Proof.
  induction 1 as [|c s Hc _ IH]; simpl; [reflexivity|].
  unfold UTF8.encode_char. rewrite Hc, IH. reflexivity.
Qed.

Lemma utf8_decode_ascii (s : bytes) :
  Forall (fun c => (c <? 128)%N = true) s -> UTF8.decode s = Return s.
Proof.
  induction 1 as [|c s Hc _ IH]; simpl; [reflexivity|].
  rewrite Hc, IH. reflexivity.
Qed.

(** ** Reading back what the CSV writer wrote *)

Lemma safe_tests (c : char) :
  safe c ->
  (c =? CSV.LF)%N = false /\ (c =? CSV.CR)%N = false
  /\ (c =? CSV.comma)%N = false /\ (c =? CSV.quote)%N = false.
Proof.
  unfold safe, CSV.special. intros H.
  repeat (apply orb_false_iff in H; destruct H as [H ?]). auto.
Qed.

Lemma write_field_safe (f : str) : Forall safe f -> CSV.write_field f = f.
Proof.
  intros H. unfold CSV.write_field.
  replace (existsb CSV.special f) with false; [reflexivity|].
  symmetry. induction H as [|c f Hc _ IH]; simpl; [reflexivity|].
  now rewrite Hc, IH.
Qed.

Lemma write_fields_safe (fs : list str) :
  Forall (Forall safe) fs -> map CSV.write_field fs = fs.
Proof.
  induction 1 as [|f fs Hf _ IH]; simpl; [reflexivity|].
  now rewrite write_field_safe, IH.
Qed.

(** The reader inside an unquoted field takes safe characters as they come. *)
Lemma run_in_field (w : str) (d : list (list str)) (fs : list str) (fld rest : str) :
  Forall safe w ->
  CSV.run (CSV.mkReader d fs fld CSV.InField) (w ++ rest)
  = CSV.run (CSV.mkReader d fs (rev w ++ fld) CSV.InField) rest.
Proof.
  intros H. revert fld. induction H as [|c w Hc _ IH]; intros fld; [reflexivity|].
  destruct (safe_tests c Hc) as (H1 & H2 & H3 & H4).
  cbn [app CSV.run]. unfold CSV.step. cbn [CSV.st CSV.done CSV.fields CSV.field].
  rewrite H1, H2, H3, H4. cbn [andb]. rewrite IH. simpl. now rewrite <- app_assoc.
Qed.

Lemma run_start_field (w : str) (c : char) (d : list (list str)) (fs : list str)
      (st : CSV.state) (rest : str) :
  field_start st fs -> safe c -> Forall safe w ->
  CSV.run (CSV.mkReader d fs [] st) (c :: w ++ rest)
  = CSV.run (CSV.mkReader d fs (rev (c :: w)) CSV.InField) rest.
Proof.
  intros Hst Hc Hw. destruct (safe_tests c Hc) as (H1 & H2 & H3 & H4).
  cbn [CSV.run]. unfold CSV.step. cbn [CSV.st CSV.done CSV.fields CSV.field].
  destruct Hst as [-> | [-> ->]]; rewrite H1, H2, H3, ?H4; cbn [andb];
    rewrite run_in_field by assumption; reflexivity.
Qed.

(** A field and the comma after it. *)
Lemma run_field_comma (w : str) (d : list (list str)) (fs : list str)
      (st : CSV.state) (rest : str) :
  field_start st fs -> Forall safe w ->
  CSV.run (CSV.mkReader d fs [] st) (w ++ CSV.comma :: rest)
  = CSV.run (CSV.mkReader d (w :: fs) [] CSV.StartField) rest.
Proof.
  intros Hst Hw. destruct w as [|c w].
  - cbn [app CSV.run]. unfold CSV.step. cbn [CSV.st CSV.done CSV.fields CSV.field].
    destruct Hst as [-> | [-> ->]]; reflexivity.
  - inversion Hw as [|? ? Hc Hw']; subst.
    change ((c :: w) ++ CSV.comma :: rest) with (c :: w ++ CSV.comma :: rest).
    rewrite run_start_field by assumption.
    cbn [CSV.run]. unfold CSV.step, CSV.end_field.
    cbn [CSV.st CSV.done CSV.fields CSV.field].
    rewrite rev_involutive. reflexivity.
Qed.

(** The last field of a row and the line terminator after it. *)
Lemma run_field_linesep (os : platform) (w : str) (d : list (list str))
      (fs : list str) (st : CSV.state) (rest : str) :
  field_start st fs -> Forall safe w ->
  st = CSV.StartField \/ w <> [] ->
  CSV.run (CSV.mkReader d fs [] st) (w ++ linesep os ++ rest)
  = CSV.run (CSV.mkReader (rev (w :: fs) :: d) [] [] CSV.StartRow) rest.
Proof.
  intros Hst Hw Hne. destruct w as [|c w].
  - destruct Hne as [-> | Hne]; [|contradiction].
    destruct os; reflexivity.
  - inversion Hw as [|? ? Hc Hw']; subst.
    change ((c :: w) ++ linesep os ++ rest) with (c :: w ++ linesep os ++ rest).
    rewrite run_start_field by assumption.
    destruct os; cbn [linesep app CSV.run]; unfold CSV.step, CSV.end_row, CSV.end_field;
      cbn [CSV.st CSV.done CSV.fields CSV.field]; rewrite rev_involutive; reflexivity.
Qed.

Lemma run_row (os : platform) (fs : list str) :
  Forall (Forall safe) fs ->
  forall (f : str) (d : list (list str)) (acc : list str) (st : CSV.state) (rest : str),
    Forall safe f ->
    field_start st acc ->
    st = CSV.StartField \/ f <> [] \/ fs <> [] ->
    CSV.run (CSV.mkReader d acc [] st) (join [CSV.comma] (f :: fs) ++ linesep os ++ rest)
    = CSV.run (CSV.mkReader ((rev acc ++ f :: fs) :: d) [] [] CSV.StartRow) rest.
Proof.
  induction 1 as [|g fs Hg _ IH]; intros f d acc st rest Hf Hst Hne.
  - cbn [join]. rewrite run_field_linesep; try assumption.
    + reflexivity.
    + destruct Hne as [H | [H | H]]; [now left | now right | contradiction].
  - change (join [CSV.comma] (f :: g :: fs))
      with (f ++ [CSV.comma] ++ join [CSV.comma] (g :: fs)).
    rewrite <- !app_assoc. cbn [app].
    rewrite run_field_comma by assumption.
    rewrite IH; [|assumption | now left | now left].
    cbn [rev]. now rewrite <- app_assoc.
Qed.

(** A table of rows with at least two columns each reads back as written. *)
Lemma run_rows (os : platform) (table : list (list str)) :
  Forall (fun row => Forall (Forall safe) row /\ 2 <= List.length row) table ->
  forall (d : list (list str)) (rest : str),
    CSV.run (CSV.mkReader d [] [] CSV.StartRow)
            (concat (map (CSV.write_row os) table) ++ rest)
    = CSV.run (CSV.mkReader (rev table ++ d) [] [] CSV.StartRow) rest.
Proof.
  induction 1 as [|row table [Hrow Hlen] _ IH]; intros d rest; [reflexivity|].
  cbn [map concat]. unfold CSV.write_row at 1.
  rewrite write_fields_safe by assumption.
  destruct row as [|f [|g fs]]; simpl in Hlen; try lia.
  inversion Hrow as [|? ? Hf Hfs]; subst.
  rewrite <- !app_assoc.
  rewrite (run_row os (g :: fs) Hfs f d [] CSV.StartRow);
    [| assumption | right; now split | right; right; discriminate].
  rewrite IH. cbn [rev app]. now rewrite <- app_assoc.
Qed.

Lemma csv_read_written (os : platform) (table : list (list str)) :
  Forall (fun row => Forall (Forall safe) row /\ 2 <= List.length row) table ->
  CSV.read (concat (map (CSV.write_row os) table)) = Some table.
Proof.
  intros H. unfold CSV.read.
  rewrite <- (app_nil_r (concat _)), (run_rows os table H). cbn [CSV.run].
  unfold CSV.finish. cbn [CSV.st CSV.done].
  now rewrite app_nil_r, rev_involutive.
Qed.

(** ** The characters of the exported cells *)

Lemma plain_safe (c : char) : plain c -> safe c.
Proof.
  unfold plain, plainb, safe. intros H. apply andb_true_iff in H.
  now apply negb_true_iff.
Qed.

Lemma plain_ascii (c : char) : plain c -> (c <? 128)%N = true.
Proof. unfold plain, plainb. intros H. now apply andb_true_iff in H. Qed.

Lemma plain_forallb (s : str) : forallb plainb s = true -> Forall plain s.
Proof. intros H. apply Forall_forall. now apply forallb_forall. Qed.

Lemma Forall_firstn_skipn {A : Type} (P : A -> Prop) (n : nat) (l : list A) :
  Forall P l -> Forall P (firstn n l) /\ Forall P (skipn n l).
Proof. intros H. apply Forall_app. now rewrite firstn_skipn. Qed.

Lemma uint_chars_plain (u : Decimal.uint) : Forall plain (uint_chars u).
Proof. induction u; simpl; constructor; auto; reflexivity. Qed.

Lemma uint_of_uint_chars (u : Decimal.uint) : uint_of_chars (uint_chars u) = Some u.
Proof. induction u; simpl; [reflexivity | rewrite IHu; reflexivity ..]. Qed.

Lemma nat_of_str_of_nat (n : nat) : nat_of_str (str_of_nat n) = Some n.
Proof.
  unfold nat_of_str, str_of_nat.
  destruct (uint_chars (Nat.to_uint n)) eqn:E.
  - assert (Hnil : Nat.to_uint n = Decimal.Nil)
      by (destruct (Nat.to_uint n); simpl in E; congruence).
    pose proof (DecimalNat.Unsigned.of_to n) as H. rewrite Hnil in H.
    simpl in H. subst n. discriminate.
  - rewrite <- E, uint_of_uint_chars. simpl.
    now rewrite DecimalNat.Unsigned.of_to.
Qed.

Lemma strip_zeros_plain (s : str) : Forall plain s -> Forall plain (Float64.strip_zeros s).
Proof.
  induction 1 as [|c s Hc Hs IH]; simpl; [constructor|].
  destruct (c =? 48)%N; [assumption | now constructor].
Qed.

Lemma format_short_plain (ds : str) (k : Z) :
  Forall plain ds -> Forall plain (Float64.format_short ds k).
Proof.
  intros H. unfold Float64.format_short.
  assert (Hz : forall n, Forall plain (Float64.zeros n))
    by (intros n; unfold Float64.zeros; induction (Z.to_nat n); simpl;
        constructor; auto; reflexivity).
  destruct ((k <=? -4)%Z || (16 <? k)%Z).
  - apply Forall_app. split.
    + destruct ds as [|c [|c' ds]]; [constructor | assumption |].
      inversion H; subst. repeat (constructor; [first [assumption | reflexivity]|]).
      inversion H3; subst. now constructor.
    + constructor; [reflexivity|]. constructor; [now destruct (k - 1 <? 0)%Z|].
      destruct (Z.abs (k - 1) <? 10)%Z; [constructor; [reflexivity|]|];
        apply uint_chars_plain.
  - destruct (k <=? 0)%Z.
    + repeat (constructor; [reflexivity|]). apply Forall_app. auto.
    + destruct (k <? Z.of_nat (List.length ds))%Z.
      * destruct (Forall_firstn_skipn plain (Z.to_nat k) ds H) as [H1 H2].
        apply Forall_app. split; [assumption|]. now constructor.
      * apply Forall_app. split; [assumption|]. apply Forall_app. split; [apply Hz|].
        repeat (constructor; [reflexivity|]). constructor.
Qed.

(** Whatever the double, its [repr] is made of plain characters. *)
Lemma repr_plain (x : float) : Forall plain (Float64.repr x).
Proof.
  unfold Float64.repr. destruct (Prim2SF x) as [s | s | | s m e].
  - destruct s; apply plain_forallb; reflexivity.
  - destruct s; apply plain_forallb; reflexivity.
  - apply plain_forallb; reflexivity.
  - destruct (Float64.shortest m e (Float64.decpt m e) 1 17) as [d n].
    assert (H : Forall plain
                  (Float64.format_short
                     (Float64.rstrip_zeros (str_of_N (Z.to_N d)))
                     (Float64.decpt m e
                      + Z.of_nat (List.length (str_of_N (Z.to_N d))) - n))).
    { apply format_short_plain. unfold Float64.rstrip_zeros.
      apply Forall_rev, strip_zeros_plain, Forall_rev, uint_chars_plain. }
    destruct s; [constructor; [reflexivity | exact H] | exact H].
Qed.

Lemma percent_of_text_plain (f t : nat) : Forall plain (percent_of_text f t).
Proof.
  unfold percent_of_text. apply Forall_app. split; [apply repr_plain|].
  apply plain_forallb. reflexivity.
Qed.

(** ** The export and its reading back *)

Lemma read_row_cells (r : RankedRow) : read_row (cells r) = Some r.
Proof.
  destruct r as [rank [[word frequency] percent]].
  unfold cells, read_row, Rank, Word, Frequency, Percent. cbn [fst snd].
  now rewrite !nat_of_str_of_nat.
Qed.

Lemma read_rows_cells (rs : list RankedRow) : read_rows (map cells rs) = Some rs.
Proof.
  induction rs as [|r rs IH]; [reflexivity|].
  cbn [map read_rows]. now rewrite read_row_cells, IH.
Qed.

Lemma to_csv_lines (os : platform) (df : Frame RankedRow) :
  to_csv os df
  = concat (map (CSV.write_row os) (columns df :: map cells (rows df))).
Proof. unfold to_csv. cbn [map concat]. now rewrite map_map. Qed.

Lemma write_row_ascii (os : platform) (fs : list str) :
  Forall (Forall plain) fs ->
  Forall (fun c => (c <? 128)%N = true) (CSV.write_row os fs).
Proof.
  intros H. unfold CSV.write_row.
  rewrite write_fields_safe
    by (eapply Forall_impl; [|exact H]; intros f Hf;
        eapply Forall_impl; [|exact Hf]; apply plain_safe).
  apply Forall_app. split; [|destruct os; repeat constructor].
  induction H as [|f fs Hf Hfs IH]; [constructor|].
  assert (Hf' : Forall (fun c => (c <? 128)%N = true) f)
    by (eapply Forall_impl; [|exact Hf]; apply plain_ascii).
  destruct fs as [|g fs]; [exact Hf'|].
  change (join [CSV.comma] (f :: g :: fs))
    with (f ++ [CSV.comma] ++ join [CSV.comma] (g :: fs)).
  apply Forall_app. split; [exact Hf'|].
  apply Forall_app. split; [repeat constructor | exact IH].
Qed.

Lemma concat_Forall {A : Type} (P : A -> Prop) (ls : list (list A)) :
  Forall (Forall P) ls -> Forall P (concat ls).
Proof.
  induction 1 as [|l ls Hl _ IH]; simpl; [constructor|].
  apply Forall_app. now split.
Qed.

(** A table of plain cells, at least two to a row, survives the whole trip:
    written as CSV, encoded to UTF-8 and base64, and decoded again. *)
Lemma payload_round_trip (os : platform) (table : list (list str)) :
  Forall (fun row => Forall (Forall plain) row /\ 2 <= List.length row) table ->
  let csv := concat (map (CSV.write_row os) table) in
  let b64 := Base64.b64encode csv in
  UTF8.encode csv = Return csv
  /\ UTF8.decode b64 = Return b64
  /\ UTF8.encode b64 = Return b64
  /\ Base64.b64decode b64 = Some csv
  /\ UTF8.decode csv = Return csv
  /\ CSV.read csv = Some table.
Proof.
  intros H csv b64.
  assert (Hascii : Forall (fun c => (c <? 128)%N = true) csv).
  { apply concat_Forall. apply Forall_map. eapply Forall_impl; [|exact H].
    intros row [Hrow _]. now apply write_row_ascii. }
  assert (Hb64 : Forall (fun c => (c <? 128)%N = true) b64)
    by apply b64encode_ascii.
  repeat split.
  - now apply utf8_encode_ascii.
  - now apply utf8_decode_ascii.
  - now apply utf8_encode_ascii.
  - apply b64decode_b64encode. eapply Forall_impl; [|exact Hascii].
    intros c Hc. unfold is_octet. apply N.ltb_lt in Hc. lia.
  - now apply utf8_decode_ascii.
  - apply csv_read_written. eapply Forall_impl; [|exact H].
    intros row [Hrow Hlen]. split; [|assumption].
    eapply Forall_impl; [|exact Hrow]. intros f Hf.
    eapply Forall_impl; [|exact Hf]. apply plain_safe.
Qed.

Section ExportFacts.

Variable unicode_lower : str -> char -> str -> str.
Variable stopwords : list str.
Variable sort_desc : forall A : Type, (A -> nat) -> list A -> list A.

Hypothesis sort_desc_perm :
  forall (A : Type) (key : A -> nat) (l : list A),
    Permutation l (sort_desc A key l).

Hypothesis sort_desc_sorted :
  forall (A : Type) (key : A -> nat) (l : list A),
    Sorted (fun a b => key b <= key a) (sort_desc A key l).

Lemma get_word_stats_columns (words : list str) :
  columns (fst (get_word_stats sort_desc words)) = header.
Proof. reflexivity. Qed.

Lemma get_word_stats_cells (words : list str) :
  Forall (Forall plain) words ->
  Forall (fun row => Forall (Forall plain) row /\ 2 <= List.length row)
         (header :: map cells (rows (fst (get_word_stats sort_desc words)))).
Proof.
  intros Hwords. constructor.
  - split; [|simpl; lia].
    repeat (constructor; [apply plain_forallb; reflexivity|]). constructor.
  - apply Forall_map, Forall_forall. intros r Hr.
    destruct (get_word_stats_row sort_desc sort_desc_perm sort_desc_sorted words r Hr)
      as (Hw & _ & Hp).
    split; [|simpl; lia]. unfold cells.
    repeat constructor.
    + apply uint_chars_plain.
    + rewrite Forall_forall in Hwords. now apply Hwords.
    + apply uint_chars_plain.
    + rewrite Hp. apply percent_of_text_plain.
Qed.

(** The tokens of [clean_text] are plain: they are made of Latin letters. *)
Lemma clean_text_plain (text : str) :
  Forall (Forall plain) (clean_text unicode_lower stopwords text).
Proof.
  pose proof (clean_text_words unicode_lower stopwords (fun _ => True) text) as H.
  eapply Forall_impl; [|apply H].
  - intros w [[_ Hw] _]. eapply Forall_impl; [|exact Hw].
    intros c (_ & Hc & _). unfold plain, plainb, CSV.special, CSV.comma,
      CSV.quote, CSV.LF, CSV.CR.
    unfold is_latin_letter, Unicode.is_ascii_lower, Unicode.is_ascii_upper,
      Unicode.in_range in Hc.
    unbool. lia.
  - apply Forall_forall. auto.
Qed.

(** C6: [download_button] links a base64 payload whose decoding (base64,
    UTF-8, CSV) has the header Rank, Word, Frequency, % of Text and then,
    line by line and in their order, the rows of the table.  This holds for
    the table of every token list of plain words (ASCII, no comma, quote or
    line break), and so for the table of the tokens of every text. *)
Theorem export_round_trip (os : platform) :
  (forall words : list str,
     Forall (Forall plain) words ->
     let df := fst (get_word_stats sort_desc words) in
     exists payload,
       export_payload os df = Return payload
       /\ download_button os df = Return (href payload)
       /\ decode_export payload = Some (header, rows df))
  /\ (forall text : str,
        let df := fst (get_word_stats sort_desc
                         (clean_text unicode_lower stopwords text)) in
        exists payload,
          export_payload os df = Return payload
          /\ download_button os df = Return (href payload)
          /\ decode_export payload = Some (header, rows df)).
Proof.
  assert (Hplain : forall words : list str,
     Forall (Forall plain) words ->
     let df := fst (get_word_stats sort_desc words) in
     exists payload,
       export_payload os df = Return payload
       /\ download_button os df = Return (href payload)
       /\ decode_export payload = Some (header, rows df)).
  { intros words Hwords df.
    pose proof (payload_round_trip os _ (get_word_stats_cells words Hwords))
      as (H1 & H2 & H3 & H4 & H5 & H6).
    fold df in H1, H2, H3, H4, H5, H6.
    rewrite <- (get_word_stats_columns words) in H1, H2, H3, H4, H5, H6.
    fold df in H1, H2, H3, H4, H5, H6.
    rewrite <- to_csv_lines in H1, H2, H3, H4, H5, H6.
    exists (Base64.b64encode (to_csv os df)).
    assert (Hpayload : export_payload os df
                       = Return (Base64.b64encode (to_csv os df))).
    { unfold export_payload. rewrite H1. cbn [bind]. exact H2. }
    split; [exact Hpayload|]. split.
    - unfold download_button. now rewrite Hpayload.
    - unfold decode_export. rewrite H3, H4, H5, H6.
      rewrite read_rows_cells. reflexivity. }
  split; [exact Hplain|].
  intros text. apply Hplain, clean_text_plain.
Qed.

End ExportFacts.

(** ** The Analyze section *)

Section PageFacts.

Variable unicode_lower : str -> char -> str -> str.
Variable stopwords : list str.
Variable sort_desc : forall A : Type, (A -> nat) -> list A -> list A.
Variable extract_top_keywords : str -> list (str * float).

Local Abbreviation cleaned := (clean_text unicode_lower stopwords).
Local Abbreviation section :=
  (analyze_section unicode_lower stopwords sort_desc extract_top_keywords).

Lemma analyze_section_blank (text : str) (clicked : bool) :
  Forall (fun c => Unicode.isspace c = true) text -> section text clicked = [].
Proof.
  intros H. unfold analyze_section. apply strip_empty in H. now rewrite H.
Qed.

Lemma analyze_section_shown (text : str) (clicked : bool) :
  ~ Forall (fun c => Unicode.isspace c = true) text ->
  section text clicked
  = Button (lit "Analyze Text") ::
    if clicked then
      match cleaned text with
      | [] => [Warning no_valid_words]
      | _ :: _ =>
          let (df, word_freq) := get_word_stats sort_desc (cleaned text) in
          [ Call_get_word_stats (cleaned text);
            Call_extract_top_keywords text;
            Subheader (128273%N :: lit " Top 5 Keywords");
            Call_plot_keywords (extract_top_keywords text);
            Subheader (128202%N :: lit " Top 15 Most Frequent Words");
            Call_plot_top_words word_freq;
            Subheader (9729%N :: lit " Word Cloud");
            Call_plot_wordcloud word_freq;
            Subheader (128203%N :: lit " Full Word List (Paginated)");
            Call_AgGrid df;
            Markdown (lit "### " ++ 128190%N :: lit " Download Options:");
            Call_download_button df ]
      end
    else [].
Proof.
  intros H. unfold analyze_section.
  destruct (strip text) eqn:E; [|reflexivity].
  apply strip_empty in E. contradiction.
Qed.

(** C8, as the code has it: a text of whitespace only (the empty text
    included) has no token, and the section does nothing for it: the
    button is not shown, nothing is reported and the aggregator is not
    called.  The warning is what a click reports for a text that has
    some other character but no token, and whenever the text has no token
    the aggregator is not called. *)
Theorem analyze_section_without_words (text : str) (clicked : bool) :
  (Forall (fun c => Unicode.isspace c = true) text ->
     cleaned text = [] /\ section text clicked = [])
  /\ (~ Forall (fun c => Unicode.isspace c = true) text ->
      cleaned text = [] ->
      section text true = [Button (lit "Analyze Text"); Warning no_valid_words])
  /\ (cleaned text = [] ->
      existsb is_Call_get_word_stats (section text clicked) = false).
Proof.
  split; [|split].
  - intros H. split; [now apply clean_text_blank | now apply analyze_section_blank].
  - intros H Hclean. rewrite analyze_section_shown by assumption.
    now rewrite Hclean.
  - intros Hclean.
    destruct (Forall_dec (fun c => Unicode.isspace c = true)
                (fun c => bool_dec (Unicode.isspace c) true) text) as [H | H].
    + now rewrite analyze_section_blank.
    + rewrite analyze_section_shown by assumption. rewrite Hclean.
      now destruct clicked.
Qed.

(** The aggregator is called in exactly one case: the text is not blank,
    the button was clicked and the text has a token; the call then comes
    first after the button and is made on the tokens of the text. *)
Theorem analyze_section_calls_aggregator (text : str) (clicked : bool) :
  existsb is_Call_get_word_stats (section text clicked)
  = negb (forallb Unicode.isspace text) && clicked
    && negb (match cleaned text with [] => true | _ => false end)
  /\ (existsb is_Call_get_word_stats (section text clicked) = true ->
      nth_error (section text clicked) 1 = Some (Call_get_word_stats (cleaned text))).
Proof.
  destruct (Forall_dec (fun c => Unicode.isspace c = true)
              (fun c => bool_dec (Unicode.isspace c) true) text) as [H | H].
  - rewrite analyze_section_blank by assumption.
    replace (forallb Unicode.isspace text) with true; [split; [reflexivity | discriminate]|].
    symmetry. apply forallb_forall. now apply Forall_forall.
  - rewrite analyze_section_shown by assumption.
    replace (forallb Unicode.isspace text) with false.
    2:{ destruct (forallb Unicode.isspace text) eqn:E; [|reflexivity].
        exfalso. apply H, Forall_forall. now apply forallb_forall. }
    destruct clicked; [|split; [reflexivity | discriminate]].
    destruct (cleaned text) as [|w ws] eqn:E; [split; [reflexivity | discriminate]|].
    destruct (get_word_stats sort_desc (w :: ws)) as [df word_freq].
    split; reflexivity.
Qed.

End PageFacts.

(** C8, as stated, fails on three spaces: the text has no token, but the
    section reports no warning (it shows nothing at all). *)
Lemma blank_text_shows_no_warning :
  ~ (clean_text sample_lower english_stopwords (lit "   ") = []
     /\ In (Warning no_valid_words)
           (analyze_section sample_lower english_stopwords stable_sort_desc
              (fun _ => []) (lit "   ") true)).
Proof. intros [_ H]. exact H. Qed.

(** ** The source resolver *)

Section ResolverFacts.

Variable requests_get : str -> result Response.
Variable Tag : Type.
Variable find_booklink : str -> option Tag.
Variable anchor_href : Tag -> result str.

(** Whatever the request raises leaves [get_book_url] as it is. *)
Lemma get_book_url_propagates (book_name : str) (e : exn) :
  requests_get (search_url book_name) = Raise e ->
  get_book_url requests_get find_booklink anchor_href book_name = Raise e.
Proof. intros H. unfold get_book_url. now rewrite H. Qed.

(** A page with no result element gives [None]. *)
Lemma get_book_url_not_found (book_name : str) (response : Response) :
  requests_get (search_url book_name) = Return response ->
  find_booklink (text response) = None ->
  get_book_url requests_get find_booklink anchor_href book_name = Return None.
Proof. intros H1 H2. unfold get_book_url. rewrite H1. cbn [bind]. now rewrite H2. Qed.

(** The two fetchers do catch a failed request. *)
Lemma fetchers_catch (url : str) :
  requests_get url = Raise RequestException ->
  scrape_novel requests_get url = Return None
  /\ fetch_text_from_url requests_get url = Return None.
Proof. intros H. unfold scrape_novel, fetch_text_from_url. now rewrite H. Qed.

(** Neither fetcher lets a [RequestException] out, and
    [fetch_text_from_url] lets nothing out at all; each returns the body
    only for a response whose status is not an error. *)
Theorem fetchers_do_not_raise (url : str) :
  scrape_novel requests_get url <> Raise RequestException
  /\ (forall e, fetch_text_from_url requests_get url <> Raise e)
  /\ (forall body,
        scrape_novel requests_get url = Return (Some body) ->
        requests_get url = Return {| ok := true; text := body |})
  /\ (forall body,
        fetch_text_from_url requests_get url = Return (Some body) ->
        requests_get url = Return {| ok := true; text := body |}).
Proof.
  unfold scrape_novel, fetch_text_from_url.
  destruct (requests_get url) as [[status body'] | e]; cbn [bind ok text].
  - destruct status; repeat split; try discriminate.
    + intros body [= <-]. reflexivity.
    + intros body [= <-]. reflexivity.
  - repeat split; try discriminate; destruct e; discriminate.
Qed.


End ResolverFacts.

(** C4: with no connection, [get_book_url] raises the [RequestException] of
    the request instead of returning [None], while [scrape_novel] and
    [fetch_text_from_url] return [None] on the same failure. *)
Theorem get_book_url_raises_when_offline :
  get_book_url offline (fun _ : str => @None unit) (fun _ => Raise KeyError)
    (lit "Pride and Prejudice")
  = Raise RequestException
  /\ scrape_novel offline (lit "https://www.gutenberg.org/ebooks/1342.txt.utf-8")
     = Return None
  /\ fetch_text_from_url offline (lit "https://www.gutenberg.org/ebooks/1342.txt.utf-8")
     = Return None.
Proof. repeat split. Qed.

(** ** Instances *)

Lemma sample_lower_no_capital (before : str) (c : char) (after : str) :
  Unicode.is_ascii c = false ->
  Forall (fun d => Unicode.is_ascii_upper d = false) (sample_lower before c after).
Proof.
  intros H. unfold sample_lower.
  destruct (Unicode.in_range 192 222 c && negb (c =? 215))%N eqn:E1.
  - constructor; [|constructor].
    unfold Unicode.is_ascii_upper, Unicode.in_range in *. unbool. lia.
  - destruct (c =? 304)%N; [now repeat constructor|].
    destruct (c =? 8490)%N; [now repeat constructor|].
    destruct (c =? 931)%N.
    + destruct after as [|d ?]; [now repeat constructor|].
      destruct (Unicode.isspace d); now repeat constructor.
    + constructor; [|constructor].
      unfold Unicode.is_ascii_upper, Unicode.is_ascii, Unicode.in_range in *.
      unbool. lia.
Qed.

Lemma clean_text_refines_spec_witness :
  clean_text sample_lower english_stopwords mixed_text = [lit "ik"; lit "ab"; lit "cd"]
  /\ clean_text sample_lower english_stopwords mixed_text
     = clean_text_spec sample_lower english_stopwords mixed_text
  /\ Forall (fun w => w <> []
                      /\ Forall (fun c => Unicode.is_ascii_lower c = true) w
                      /\ ~ In w english_stopwords)
            (clean_text sample_lower english_stopwords mixed_text).
Proof.
  split; [reflexivity|].
  exact (clean_text_refines_spec sample_lower english_stopwords
           sample_lower_no_capital mixed_text).
Defined.

Lemma clean_sentence_is_clean :
  Forall (fun c => Unicode.is_ascii_lower c = true \/ c = 32%N) clean_sentence.
Proof.
  apply Forall_forall. intros c Hc.
  assert (H : forallb (fun c => Unicode.is_ascii_lower c || (c =? 32)%N) clean_sentence = true)
    by reflexivity.
  rewrite forallb_forall in H. specialize (H c Hc).
  apply orb_true_iff in H. destruct H as [H | H]; [now left | right; now apply N.eqb_eq].
Qed.

Lemma clean_text_idempotent_witness :
  clean_text sample_lower english_stopwords clean_sentence = cat_tokens
  /\ clean_text sample_lower english_stopwords
       (join [32%N] (clean_text sample_lower english_stopwords clean_sentence))
     = clean_text sample_lower english_stopwords clean_sentence.
Proof.
  split; [reflexivity|].
  exact (clean_text_idempotent sample_lower english_stopwords clean_sentence
           clean_sentence_is_clean).
Defined.

Lemma ranks_witness :
  let df := fst (get_word_stats stable_sort_desc cat_tokens) in
  map Rank (rows df) = seq 1 (List.length (nodup str_eq_dec cat_tokens))
  /\ StronglySorted (fun a b => Frequency a >= Frequency b) (rows df).
Proof.
  exact (ranks_contiguous_frequency_nonincreasing stable_sort_desc
           stable_sort_desc_perm stable_sort_desc_sorted cat_tokens).
Defined.

Lemma percent_column_witness :
  In (1, (lit "cat", 2, lit "40.0 %")) (rows (fst (get_word_stats stable_sort_desc cat_tokens)))
  /\ Percent (1, (lit "cat", 2, lit "40.0 %"))
     = Float64.repr
         (Float64.round2
            (Float64.of_Z 2 / Float64.of_Z 5 * Float64.of_Z 100)%float)
       ++ lit " %".
Proof.
  assert (Hin : In (1, (lit "cat", 2, lit "40.0 %"))
                   (rows (fst (get_word_stats stable_sort_desc cat_tokens))))
    by (vm_compute; left; reflexivity).
  split; [exact Hin|].
  exact (proj2 (proj1 (percent_column_format stable_sort_desc stable_sort_desc_perm
                         stable_sort_desc_sorted cat_tokens) _ Hin)).
Defined.

Lemma get_word_stats_empty_witness :
  get_word_stats stable_sort_desc []
  = ({| columns := header; index := []; rows := [] |}, [])
  /\ sum (map snd (snd (get_word_stats stable_sort_desc []))) = 0.
Proof.
  exact (get_word_stats_empty stable_sort_desc stable_sort_desc_perm).
Defined.

Lemma english_stopwords_the_cat :
  In (lit "the") english_stopwords /\ In (lit "on") english_stopwords
  /\ ~ In (lit "cat") english_stopwords /\ ~ In (lit "sat") english_stopwords
  /\ ~ In (lit "mat") english_stopwords /\ ~ In (lit "ran") english_stopwords.
Proof.
  repeat split;
    first [ now apply str_in_In
          | intros H; apply str_in_In in H; discriminate ].
Qed.

Lemma the_cat_sat_witness :
  let words := clean_text sample_lower english_stopwords the_cat_sat in
  let (df, word_freq) := get_word_stats stable_sort_desc words in
  words = cat_tokens
  /\ word_freq = [(lit "cat", 2); (lit "sat", 1); (lit "mat", 1); (lit "ran", 1)]
  /\ map Rank (rows df) = [1; 2; 3; 4]
  /\ Permutation (map snd (rows df)) cat_rows
  /\ hd_error (rows df) = Some (1, (lit "cat", 2, lit "40.0 %")).
Proof.
  destruct english_stopwords_the_cat as (H1 & H2 & H3 & H4 & H5 & H6).
  exact (the_cat_sat_example sample_lower english_stopwords stable_sort_desc
           stable_sort_desc_perm stable_sort_desc_sorted H1 H2 H3 H4 H5 H6).
Defined.

Lemma cat_tokens_plain : Forall (Forall plain) cat_tokens.
Proof. repeat (constructor; [apply plain_forallb; reflexivity|]). constructor. Qed.

Lemma export_round_trip_witness :
  Forall (Forall plain) cat_tokens
  /\ let df := fst (get_word_stats stable_sort_desc cat_tokens) in
     exists payload,
       export_payload Windows df = Return payload
       /\ download_button Windows df = Return (href payload)
       /\ decode_export payload = Some (header, rows df).
Proof.
  split; [exact cat_tokens_plain|].
  exact (proj1 (export_round_trip sample_lower english_stopwords stable_sort_desc
                  stable_sort_desc_perm stable_sort_desc_sorted Windows)
           cat_tokens cat_tokens_plain).
Defined.

Lemma analyze_section_witness :
  let text := lit "On the 14, 3 of 12!" in
  ~ Forall (fun c => Unicode.isspace c = true) text
  /\ clean_text sample_lower english_stopwords text = []
  /\ analyze_section sample_lower english_stopwords stable_sort_desc (fun _ => []) text true
     = [Button (lit "Analyze Text"); Warning no_valid_words].
Proof.
  cbv zeta.
  assert (H1 : ~ Forall (fun c => Unicode.isspace c = true) (lit "On the 14, 3 of 12!"))
    by (intros H; inversion H; discriminate).
  assert (H2 : clean_text sample_lower english_stopwords (lit "On the 14, 3 of 12!") = [])
    by reflexivity.
  split; [exact H1|]. split; [exact H2|].
  exact (proj1 (proj2 (analyze_section_without_words sample_lower english_stopwords
                         stable_sort_desc (fun _ => []) (lit "On the 14, 3 of 12!") true))
           H1 H2).
Defined.

(** The rounding of the percentage is that of the binary64 computation: of
    two shares that lie exactly between two hundredths, 14.375 and 30.625,
    the first goes down and the second goes up. *)
Theorem percent_ties_follow_binary64 :
  ((23 * 10000 = 1437 * 160 + 80)%Z /\ percent_of_text 23 160 = lit "14.37 %")
  /\ ((49 * 10000 = 3062 * 160 + 80)%Z /\ percent_of_text 49 160 = lit "30.63 %").
Proof. repeat split; vm_compute; reflexivity. Qed.

Lemma table_rows_witness :
  let rs := rows (fst (get_word_stats stable_sort_desc cat_tokens)) in
  NoDup (map Word rs)
  /\ (forall w, In w (map Word rs) <-> In w cat_tokens)
  /\ (forall r, In r rs -> Frequency r = count_occ str_eq_dec cat_tokens (Word r)).
Proof.
  exact (table_rows_are_the_distinct_tokens stable_sort_desc
           stable_sort_desc_perm stable_sort_desc_sorted cat_tokens).
Defined.


(** ** The bar chart of the most frequent words *)

Lemma insert_desc_stable {A : Type} (key : A -> nat) (k : nat) (x : A) (l : list A) :
  filter (fun y => key y =? k) (insert_desc key x l)
  = filter (fun y => key y =? k) (x :: l).
Proof.
  induction l as [|y l IH]; [reflexivity|].
  cbn [insert_desc]. destruct (key x <? key y) eqn:E; [|reflexivity].
  apply Nat.ltb_lt in E. cbn [filter] in *. rewrite IH.
  destruct (key x =? k) eqn:Ex; [|reflexivity].
  apply Nat.eqb_eq in Ex.
  replace (key y =? k) with false; [reflexivity|].
  symmetry. apply Nat.eqb_neq. lia.
Qed.

(** The sort is stable: entries of one key keep their order. *)
Lemma stable_sort_desc_stable (A : Type) (key : A -> nat) (k : nat) (l : list A) :
  filter (fun y => key y =? k) (stable_sort_desc A key l)
  = filter (fun y => key y =? k) l.
Proof.
  induction l as [|x l IH]; [reflexivity|].
  cbn [stable_sort_desc fold_right]. rewrite insert_desc_stable.
  cbn [filter]. unfold stable_sort_desc in IH. now rewrite IH.
Qed.

(** The keys of the counter stand in the order of first occurrence. *)
Lemma fold_counter_first_seen (words : list str) (d : Counter_t) :
  map fst (fold_left (fun d w => count_elem w d) words d)
  = map fst d ++ first_seen (map fst d) words.
Proof.
  revert d. induction words as [|w words IH]; intros d; cbn [fold_left first_seen].
  - now rewrite app_nil_r.
  - rewrite IH, count_elem_keys.
    destruct (in_dec str_eq_dec w (map fst d)) as [Hin | Hout].
    + apply str_in_In in Hin. now rewrite Hin.
    + replace (str_in w (map fst d)) with false.
      * now rewrite <- app_assoc.
      * symmetry. destruct (str_in w (map fst d)) eqn:E; [|reflexivity].
        apply str_in_In in E. contradiction.
Qed.

Lemma Counter_first_seen (words : list str) :
  map fst (Counter words) = first_seen [] words.
Proof. unfold Counter. now rewrite fold_counter_first_seen. Qed.

Lemma Counter_nonempty (words : list str) : words <> [] -> Counter words <> [].
Proof.
  intros Hne Hc. destruct words as [|w words]; [contradiction|].
  assert (H : In w (map fst (Counter (w :: words))))
    by (apply Counter_keys; now left).
  now rewrite Hc in H.
Qed.

Lemma filter_count_keys (words : list str) (c : nat) (d : Counter_t) :
  (forall w v, In (w, v) d -> v = count_occ str_eq_dec words w) ->
  map fst (filter (fun e => snd e =? c) d)
  = filter (fun w => count_occ str_eq_dec words w =? c) (map fst d).
Proof.
  induction d as [|[w v] d IH]; intros H; [reflexivity|].
  cbn [filter map fst snd].
  rewrite <- (H w v) by now left.
  rewrite <- IH by (intros w' v' Hin; apply H; now right).
  now destruct (v =? c).
Qed.

(** The bars of [plot_top_words] on the counter of a non-empty token list:
    the first [top_n] entries of the counter sorted by descending count,
    each word with the number of its occurrences; and words of equal count
    stand in the order in which they first occur among the tokens. *)
Theorem plot_top_words_bars (words : list str) (top_n : nat) :
  words <> [] -> 0 < top_n ->
  let ranking := stable_sort_desc (str * nat) snd (Counter words) in
  plot_top_words (Counter words) top_n
  = Ok (firstn top_n (map fst ranking), firstn top_n (map snd ranking))
  /\ Permutation (Counter words) ranking
  /\ StronglySorted (fun a b => snd a >= snd b) ranking
  /\ (forall w c, In (w, c) ranking -> c = count_occ str_eq_dec words w)
  /\ (forall c,
        map fst (filter (fun e => snd e =? c) ranking)
        = filter (fun w => count_occ str_eq_dec words w =? c)
                 (first_seen [] words)).
Proof.
  intros Hne Hn ranking.
  assert (Hperm : Permutation (Counter words) ranking)
    by apply stable_sort_desc_perm.
  repeat split.
  - unfold plot_top_words, most_common. fold ranking. rewrite !firstn_map.
    destruct ranking as [|e ranking'] eqn:E.
    + apply Permutation_sym, Permutation_nil in Hperm.
      now apply Counter_nonempty in Hperm.
    + destruct top_n as [|n]; [lia | reflexivity].
  - exact Hperm.
  - apply Sorted_StronglySorted; [intros a b c; lia|].
    apply (stable_sort_desc_sorted (str * nat) snd).
  - intros w c Hin. apply Counter_count.
    now apply (Permutation_in _ (Permutation_sym Hperm)).
  - intros c. unfold ranking.
    rewrite (stable_sort_desc_stable (str * nat) snd c).
    rewrite (filter_count_keys words c) by apply Counter_count.
    now rewrite Counter_first_seen.
Qed.


(** Two lists of numbers in descending order with the same elements are
    the same list. *)
Lemma desc_sorted_unique (l1 l2 : list nat) :
  StronglySorted ge l1 -> StronglySorted ge l2 -> Permutation l1 l2 -> l1 = l2.
Proof.
  revert l2. induction l1 as [|x l1 IH]; intros l2 H1 H2 Hperm.
  - now apply Permutation_nil in Hperm.
  - destruct l2 as [|y l2]; [now apply Permutation_sym, Permutation_nil in Hperm|].
    inversion H1 as [|? ? H1' Hx]; subst. inversion H2 as [|? ? H2' Hy]; subst.
    rewrite Forall_forall in Hx, Hy.
    assert (Hxy : x = y).
    { assert (Hin1 : In x (y :: l2)) by (apply (Permutation_in _ Hperm); now left).
      assert (Hin2 : In y (x :: l1))
        by (apply (Permutation_in _ (Permutation_sym Hperm)); now left).
      destruct Hin1 as [-> | Hin1]; [reflexivity|].
      destruct Hin2 as [-> | Hin2]; [reflexivity|].
      specialize (Hx _ Hin2). specialize (Hy _ Hin1). lia. }
    subst y. f_equal. apply IH; try assumption.
    now apply Permutation_cons_inv in Hperm.
Qed.

Lemma StronglySorted_map {A B : Type} (R : B -> B -> Prop) (f : A -> B) (l : list A) :
  StronglySorted (fun a b => R (f a) (f b)) l -> StronglySorted R (map f l).
Proof.
  induction 1 as [|x l Hs IH Hall]; cbn; constructor; [assumption|].
  now apply Forall_map.
Qed.

Section ChartAndTable.

Variable sort_desc : forall A : Type, (A -> nat) -> list A -> list A.

Hypothesis sort_desc_perm :
  forall (A : Type) (key : A -> nat) (l : list A),
    Permutation l (sort_desc A key l).

Hypothesis sort_desc_sorted :
  forall (A : Type) (key : A -> nat) (l : list A),
    Sorted (fun a b => key b <= key a) (sort_desc A key l).

(** The heights of the bars are the first [top_n] entries of the Frequency
    column of the table, whatever the two sorts do with equal counts. *)
Theorem chart_heights_are_table_frequencies (words : list str) (top_n : nat) :
  map snd (most_common top_n (Counter words))
  = firstn top_n (map Frequency (rows (fst (get_word_stats sort_desc words)))).
Proof.
  destruct (get_word_stats_rows sort_desc sort_desc_perm sort_desc_sorted words)
    as (body & Hrows & Hperm & Hsorted).
  unfold most_common. rewrite <- firstn_map. f_equal. rewrite Hrows.
  replace (map Frequency (combine (seq 1 (List.length body)) body))
    with (map (fun b : str * nat * str => snd (fst b)) body).
  2:{ rewrite <- (map_snd_combine (seq 1 (List.length body)) body) at 1
        by apply length_seq.
      rewrite map_map. reflexivity. }
  apply desc_sorted_unique.
  - apply StronglySorted_map with (R := ge). apply Sorted_StronglySorted.
    + intros a b c. lia.
    + apply (stable_sort_desc_sorted (str * nat) snd).
  - apply StronglySorted_map with (R := ge) (f := fun b : str * nat * str => snd (fst b)).
    apply Sorted_StronglySorted; [intros a b c; lia | exact Hsorted].
  - rewrite <- (stable_sort_desc_perm (str * nat) snd (Counter words)).
    rewrite <- Hperm. unfold unranked. rewrite map_map. cbn. reflexivity.
Qed.

End ChartAndTable.

(** ** The cached fetchers *)

Lemma cache_data_again (f g : str -> result (option str)) (c c1 : Cache)
      (arg : str) (v : option str) :
  cache_data f c arg = (Return v, c1) -> cache_data g c1 arg = (Return v, c1).
Proof.
  unfold cache_data. destruct (cache_get arg c) as [v0|] eqn:E.
  - intros [= <- <-]. now rewrite E.
  - destruct (f arg) as [v0 | e]; [|discriminate].
    intros [= <- <-]. cbn [cache_get]. now rewrite str_eqb_refl.
Qed.

(** What a decorated fetcher returned for a URL it returns for ever after,
    whatever the network has become, and the URL is not requested again: in
    particular the [None] of a failed request stays. *)
Theorem cached_fetchers_keep_their_answer
        (before later : str -> result Response) (c : Cache) (url : str) :
  cache_get url c = None ->
  before url = Raise RequestException ->
  let c1 := snd (cache_data (scrape_novel before) c url) in
  let c2 := snd (cache_data (fetch_text_from_url before) c url) in
  cache_data (scrape_novel before) c url = (Return None, (url, None) :: c)
  /\ cache_data (fetch_text_from_url before) c url = (Return None, (url, None) :: c)
  /\ cache_data (scrape_novel later) c1 url = (Return None, c1)
  /\ cache_data (fetch_text_from_url later) c2 url = (Return None, c2).
Proof.
  intros Hmiss Hfail.
  assert (H1 : cache_data (scrape_novel before) c url = (Return None, (url, None) :: c)).
  { unfold cache_data. rewrite Hmiss. unfold scrape_novel. now rewrite Hfail. }
  assert (H2 : cache_data (fetch_text_from_url before) c url
               = (Return None, (url, None) :: c)).
  { unfold cache_data. rewrite Hmiss. unfold fetch_text_from_url. now rewrite Hfail. }
  cbv zeta. rewrite H1, H2. cbn [snd]. repeat split.
  - exact (cache_data_again _ (scrape_novel later) _ _ _ _ H1).
  - exact (cache_data_again _ (fetch_text_from_url later) _ _ _ _ H2).
Qed.

(** ** The page *)

Section PageRunFacts.

Variable requests_get : str -> result Response.
Variable Tag : Type.
Variable find_booklink : str -> option Tag.
Variable anchor_href : Tag -> result str.
Variable Page : Type.
Variable fitz_open : bytes -> option (list Page).
Variable get_text : Page -> str.
Variable unicode_lower : str -> char -> str -> str.
Variable stopwords : list str.
Variable sort_desc : forall A : Type, (A -> nat) -> list A -> list A.
Variable extract_top_keywords : str -> list (str * float).

Local Abbreviation run :=
  (page_run requests_get find_booklink anchor_href fitz_open get_text
     unicode_lower stopwords sort_desc extract_top_keywords).
Local Abbreviation book_url_of :=
  (get_book_url requests_get find_booklink anchor_href).
Local Abbreviation analysis :=
  (analyze_section unicode_lower stopwords sort_desc extract_top_keywords).

(** A book that is found but whose text cannot be fetched: the session key
    is set to [None], the error is shown, and the run then raises
    [AttributeError] at [text.strip()]. *)
Theorem failed_download_raises_attribute_error
        (st : State) (i : Inputs) (book_url : str) :
  in_method i = EnterNovelName ->
  in_fetch i = true ->
  book_url_of (in_book_name i) = Return (Some book_url) ->
  fst (cache_data (scrape_novel requests_get) (novel_cache st) book_url)
  = Return None ->
  raised (run st i) = Some AttributeError
  /\ session (after (run st i)) = Some PyNone
  /\ shown (run st i)
     = [Call_get_book_url (in_book_name i); Call_scrape_novel book_url;
        St_error novel_failed].
Proof.
  intros Hm Hf Hurl Hscrape. unfold page_run. rewrite Hm, Hf, Hurl.
  destruct (cache_data (scrape_novel requests_get) (novel_cache st) book_url)
    as [r c]. cbn [fst] in Hscrape. subst r.
  cbn. repeat split.
Qed.

(** Once the session key holds [None], every run under Enter Novel Name or
    Provide URL ends in an exception, unless a fetch of that run returns a
    text, which then replaces the [None]. *)
Theorem none_in_session_keeps_raising (st : State) (i : Inputs) :
  session st = Some PyNone ->
  in_method i = EnterNovelName \/ in_method i = ProvideURL ->
  (in_fetch i = false ->
     raised (run st i) = Some AttributeError /\ after (run st i) = st)
  /\ (raised (run st i) = None ->
      in_fetch i = true /\ exists t, session (after (run st i)) = Some (PyStr t)).
Proof.
  intros Hs Hm. destruct st as [s nc uc]. cbn in Hs. subst s.
  unfold page_run. cbn [session novel_cache url_cache].
  destruct Hm as [-> | ->]; destruct (in_fetch i).
  - split; [discriminate|].
    destruct (book_url_of (in_book_name i)) as [[book_url|] | e]; cbn;
      try discriminate.
    destruct (cache_data (scrape_novel requests_get) nc book_url) as [[[t|] | e] c];
      cbn; try discriminate.
    intros _. split; [reflexivity | now exists t].
  - cbn. split; [intros _; split; reflexivity | discriminate].
  - split; [discriminate|].
    destruct (cache_data (fetch_text_from_url requests_get) uc (in_url i))
      as [[[[|x t]|] | e] c]; cbn; try discriminate.
    intros _. split; [reflexivity | now exists (x :: t)].
  - cbn. split; [intros _; split; reflexivity | discriminate].
Qed.

(** [None] enters the session in one way only: a run that starts without it
    and raises [AttributeError] is a run of Enter Novel Name whose button was
    clicked, whose book was found and whose download returned [None]. *)
Theorem attribute_error_only_from_failed_download (st : State) (i : Inputs) :
  session st <> Some PyNone ->
  raised (run st i) = Some AttributeError
  \/ session (after (run st i)) = Some PyNone ->
  in_method i = EnterNovelName /\ in_fetch i = true
  /\ exists book_url,
       book_url_of (in_book_name i) = Return (Some book_url)
       /\ fst (cache_data (scrape_novel requests_get) (novel_cache st) book_url)
          = Return None.
Proof.
  intros Hs. destruct st as [s nc uc]. cbn in Hs.
  assert (Hcur : match s with None => PyStr [] | Some v => v end <> PyNone)
    by (destruct s as [[|t]|]; congruence).
  unfold page_run. cbn [session novel_cache url_cache].
  destruct (match s with None => PyStr [] | Some v => v end) as [|cur] eqn:Ecur;
    [contradiction|].
  destruct (in_method i).
  - destruct (in_fetch i); [|cbn; intros [H | H]; discriminate].
    destruct (book_url_of (in_book_name i)) as [[book_url|] | e]; cbn;
      try (intros [H | H]; discriminate).
    destruct (cache_data (scrape_novel requests_get) nc book_url)
      as [[[t|] | e] c] eqn:Ec; cbn; try (intros [H | H]; discriminate).
    intros _. split; [reflexivity|]. split; [reflexivity|]. exists book_url.
    split; [reflexivity|]. cbn [novel_cache]. now rewrite Ec.
  - destruct (in_upload i) as [pdf_file|]; [|cbn; intros [H | H]; discriminate].
    unfold extract_text_from_pdf. destruct (fitz_open pdf_file); cbn;
      intros [H | H]; discriminate.
  - cbn. intros [H | H]; discriminate.
  - destruct (in_fetch i); [|cbn; intros [H | H]; discriminate].
    destruct (cache_data (fetch_text_from_url requests_get) uc (in_url i))
      as [[[[|x t]|] | e] c]; cbn; intros [H | H]; discriminate.
Qed.

(** Upload PDF and Paste Paragraph neither read nor write the session text
    and the caches: the state is left as it was (the key initialised), and
    what is shown and raised is the same from any state. *)
Theorem upload_and_paste_leave_the_session (st st' : State) (i : Inputs) :
  in_method i = UploadPDF \/ in_method i = PasteParagraph ->
  after (run st i)
  = {| session := Some (match session st with None => PyStr [] | Some v => v end);
       novel_cache := novel_cache st; url_cache := url_cache st |}
  /\ shown (run st i) = shown (run st' i)
  /\ raised (run st i) = raised (run st' i)
  /\ raised (run st i) <> Some AttributeError.
Proof.
  intros [Hm | Hm]; unfold page_run; rewrite Hm.
  - destruct (in_upload i) as [pdf_file|]; [|cbn; repeat split; discriminate].
    unfold extract_text_from_pdf. destruct (fitz_open pdf_file); cbn;
      repeat split; discriminate.
  - cbn. repeat split. discriminate.
Qed.

(** A fetch that brings no text leaves the old one in place, and the old
    text is what the run goes on to analyse, after the error message: so it
    is with a book that is not found and with a URL whose fetch returns
    [None] or an empty body; and with no click the text in the session is
    analysed under either method, whichever of the two stored it. *)
Theorem failed_fetch_analyses_the_old_text (st : State) (i : Inputs) (old : str) :
  session st = Some (PyStr old) ->
  (in_method i = EnterNovelName -> in_fetch i = true ->
   book_url_of (in_book_name i) = Return None ->
   after (run st i) = st
   /\ raised (run st i) = None
   /\ shown (run st i)
      = [Call_get_book_url (in_book_name i); St_error book_not_found]
        ++ map Analysis (analysis old (in_analyze i)))
  /\ (in_method i = ProvideURL -> in_fetch i = true ->
      fst (cache_data (fetch_text_from_url requests_get) (url_cache st) (in_url i))
      = Return None
      \/ fst (cache_data (fetch_text_from_url requests_get) (url_cache st) (in_url i))
         = Return (Some []) ->
      session (after (run st i)) = Some (PyStr old)
      /\ raised (run st i) = None
      /\ shown (run st i)
         = [Call_fetch_text_from_url (in_url i); St_error url_failed]
           ++ map Analysis (analysis old (in_analyze i)))
  /\ (in_method i = EnterNovelName \/ in_method i = ProvideURL ->
      in_fetch i = false ->
      after (run st i) = st
      /\ raised (run st i) = None
      /\ shown (run st i) = map Analysis (analysis old (in_analyze i))).
Proof.
  intros Hs. destruct st as [s nc uc]. cbn in Hs. subst s.
  unfold page_run. cbn [session novel_cache url_cache]. repeat split.
  - rewrite H, H0, H1. reflexivity.
  - rewrite H, H0, H1. reflexivity.
  - rewrite H, H0, H1. reflexivity.
  - rewrite H, H0.
    destruct (cache_data (fetch_text_from_url requests_get) uc (in_url i)) as [r c].
    cbn [fst] in H1. destruct H1 as [-> | ->]; reflexivity.
  - rewrite H, H0.
    destruct (cache_data (fetch_text_from_url requests_get) uc (in_url i)) as [r c].
    cbn [fst] in H1. destruct H1 as [-> | ->]; reflexivity.
  - rewrite H, H0.
    destruct (cache_data (fetch_text_from_url requests_get) uc (in_url i)) as [r c].
    cbn [fst] in H1. destruct H1 as [-> | ->]; reflexivity.
  - destruct H as [-> | ->]; rewrite H0; reflexivity.
  - destruct H as [-> | ->]; rewrite H0; reflexivity.
  - destruct H as [-> | ->]; rewrite H0; reflexivity.
Qed.

End PageRunFacts.

Section PageRuns.

Variable Tag : Type.
Variable find_booklink : str -> option Tag.
Variable anchor_href : Tag -> result str.
Variable Page : Type.
Variable fitz_open : bytes -> option (list Page).
Variable get_text : Page -> str.
Variable unicode_lower : str -> char -> str -> str.
Variable stopwords : list str.
Variable sort_desc : forall A : Type, (A -> nat) -> list A -> list A.
Variable extract_top_keywords : str -> list (str * float).

Local Abbreviation run_on requests_get :=
  (page_run requests_get find_booklink anchor_href fitz_open get_text
     unicode_lower stopwords sort_desc extract_top_keywords).
Local Abbreviation analysis :=
  (analyze_section unicode_lower stopwords sort_desc extract_top_keywords).

(** A failed download is remembered.  When the text of a found book cannot
    be fetched (no connection, or an error status), the run raises
    [AttributeError]; and a second click raises it again without a new
    request for the text, whatever the network has become, because the
    [None] is in the cache of [scrape_novel]. *)
Theorem failed_download_is_remembered
        (before later : str -> result Response)
        (st : State) (i : Inputs) (book_url : str) :
  in_method i = EnterNovelName ->
  in_fetch i = true ->
  get_book_url before find_booklink anchor_href (in_book_name i)
  = Return (Some book_url) ->
  get_book_url later find_booklink anchor_href (in_book_name i)
  = Return (Some book_url) ->
  cache_get book_url (novel_cache st) = None ->
  scrape_novel before book_url = Return None ->
  let first := run_on before st i in
  let second := run_on later (after first) i in
  raised first = Some AttributeError
  /\ raised second = Some AttributeError
  /\ session (after second) = Some PyNone
  /\ shown second = shown first
  /\ after second = after first.
Proof.
  intros Hm Hf Hb Hl Hmiss Hfail. cbv zeta.
  assert (H1 : run_on before st i
               = {| after := {| session := Some PyNone;
                                novel_cache := (book_url, None) :: novel_cache st;
                                url_cache := url_cache st |};
                    shown := [Call_get_book_url (in_book_name i);
                              Call_scrape_novel book_url; St_error novel_failed];
                    raised := Some AttributeError |}).
  { unfold page_run. rewrite Hm, Hf, Hb. unfold cache_data.
    rewrite Hmiss, Hfail. reflexivity. }
  rewrite H1. cbn [after raised shown].
  unfold page_run. rewrite Hm, Hf, Hl. cbn [session novel_cache url_cache].
  unfold cache_data. cbn [cache_get]. rewrite str_eqb_refl.
  repeat split.
Qed.

(** The way of a book that is fetched: the search page gives the link, the
    text is requested at [https://www.gutenberg.org<link>.txt.utf-8], and
    the body replaces the session text, enters the cache and is what the
    Analyze section runs on.  An empty body is reported as a failure, and
    still replaces the text. *)
Theorem fetched_book_is_stored_and_analysed
        (requests_get : str -> result Response)
        (st : State) (i : Inputs) (response : Response) (tag : Tag)
        (link body : str) :
  in_method i = EnterNovelName ->
  in_fetch i = true ->
  requests_get (search_url (in_book_name i)) = Return response ->
  find_booklink (text response) = Some tag ->
  anchor_href tag = Return link ->
  let book_url := lit "https://www.gutenberg.org" ++ link ++ lit ".txt.utf-8" in
  cache_get book_url (novel_cache st) = None ->
  requests_get book_url = Return {| ok := true; text := body |} ->
  after (run_on requests_get st i)
  = {| session := Some (PyStr body);
       novel_cache := (book_url, Some body) :: novel_cache st;
       url_cache := url_cache st |}
  /\ raised (run_on requests_get st i) = None
  /\ shown (run_on requests_get st i)
     = [Call_get_book_url (in_book_name i); Call_scrape_novel book_url;
        match body with
        | [] => St_error novel_failed
        | _ :: _ => St_success book_fetched
        end]
       ++ map Analysis (analysis body (in_analyze i)).
Proof.
  intros Hm Hf Hsearch Htag Hlink book_url Hmiss Hget.
  unfold page_run. rewrite Hm, Hf. unfold get_book_url.
  rewrite Hsearch. cbn [bind]. rewrite Htag, Hlink. cbn [bind].
  fold book_url. unfold cache_data. rewrite Hmiss. unfold scrape_novel.
  rewrite Hget. cbn. destruct body; repeat split.
Qed.

End PageRuns.

(** ** The calls of the Analyze section *)

Lemma plot_top_words_ok (word_freq : Counter_t) (top_n : nat) :
  word_freq <> [] -> 0 < top_n ->
  exists w c ws cs, plot_top_words word_freq top_n = Ok (w :: ws, c :: cs).
Proof.
  intros Hne Hn. unfold plot_top_words, most_common.
  pose proof (stable_sort_desc_perm (str * nat) snd word_freq) as Hperm.
  destruct (stable_sort_desc (str * nat) snd word_freq) as [|[w c] l].
  - apply Permutation_sym, Permutation_nil in Hperm. contradiction.
  - destruct top_n as [|n]; [lia|]. cbn. now eexists _, _, _, _.
Qed.

Section AnalysisCalls.

Variable unicode_lower : str -> char -> str -> str.
Variable stopwords : list str.
Variable sort_desc : forall A : Type, (A -> nat) -> list A -> list A.
Variable extract_top_keywords : str -> list (str * float).

Hypothesis sort_desc_perm :
  forall (A : Type) (key : A -> nat) (l : list A),
    Permutation l (sort_desc A key l).

Hypothesis sort_desc_sorted :
  forall (A : Type) (key : A -> nat) (l : list A),
    Sorted (fun a b => key b <= key a) (sort_desc A key l).

Local Abbreviation analysis :=
  (analyze_section unicode_lower stopwords sort_desc extract_top_keywords).

Lemma export_of_plain_words (os : platform) (words : list str) :
  Forall (Forall plain) words ->
  let df := fst (get_word_stats sort_desc words) in
  exists payload,
    download_button os df = Return (href payload)
    /\ decode_export payload = Some (header, rows df).
Proof.
  intros Hwords df.
  pose proof (payload_round_trip os _
                (get_word_stats_cells sort_desc sort_desc_perm sort_desc_sorted
                   words Hwords))
    as (H1 & H2 & H3 & H4 & H5 & H6).
  fold df in H1, H2, H3, H4, H5, H6.
  rewrite <- (get_word_stats_columns sort_desc words) in H1, H2, H3, H4, H5, H6.
  fold df in H1, H2, H3, H4, H5, H6.
  rewrite <- to_csv_lines in H1, H2, H3, H4, H5, H6.
  exists (Base64.b64encode (to_csv os df)). split.
  - unfold download_button, export_payload. rewrite H1. cbn [bind].
    rewrite H2. reflexivity.
  - unfold decode_export. rewrite H3, H4, H5, H6.
    rewrite read_rows_cells. reflexivity.
Qed.

(** Whatever the text and the platform, the two calls of the Analyze
    section that the module defines itself succeed: [plot_top_words] gets a
    counter that is not empty, so its unpacking has bars to unpack, and
    [download_button] gets a table it can encode, whose link decodes to the
    header and the rows of that table. *)
Theorem analysis_calls_succeed (os : platform) (text : str) (clicked : bool) :
  (forall word_freq,
     In (Call_plot_top_words word_freq) (analysis text clicked) ->
     exists w c ws cs, plot_top_words word_freq 15 = Ok (w :: ws, c :: cs))
  /\ (forall df,
        In (Call_download_button df) (analysis text clicked) ->
        exists payload,
          download_button os df = Return (href payload)
          /\ decode_export payload = Some (header, rows df)).
Proof.
  unfold analyze_section.
  destruct (strip text) as [|c0 t0]; [split; intros ? []|].
  destruct clicked.
  2:{ split; intros ? [H | []]; discriminate. }
  pose proof (clean_text_plain unicode_lower stopwords text) as Hplain.
  destruct (clean_text unicode_lower stopwords text) as [|w ws] eqn:E.
  { split; intros ? [H | [H | []]]; discriminate. }
  pose proof (export_of_plain_words os (w :: ws) Hplain) as Hexport.
  assert (Hfreq : snd (get_word_stats sort_desc (w :: ws)) = Counter (w :: ws))
    by reflexivity.
  destruct (get_word_stats sort_desc (w :: ws)) as [df word_freq].
  cbn [fst snd] in Hexport, Hfreq. subst word_freq.
  split.
  - intros wf Hin. cbn [In] in Hin.
    repeat (destruct Hin as [Hin | Hin]; [try discriminate|]); [|contradiction].
    injection Hin as <-. apply plot_top_words_ok; [|lia].
    apply Counter_nonempty. discriminate.
  - intros df' Hin. cbn [In] in Hin.
    repeat (destruct Hin as [Hin | Hin]; [try discriminate|]); [|contradiction].
    injection Hin as <-. exact Hexport.
Qed.

End AnalysisCalls.

(** ** The download link for any table *)

Lemma table_in_alphabet (i : N) : (i < 64)%N -> In (Base64.table i) Base64.alphabet.
Proof.
  intros H. unfold Base64.table. apply nth_In.
  change (List.length Base64.alphabet) with 64. lia.
Qed.

Lemma sextet_base64_char (n s : N) : base64_char (Base64.sextet n s).
Proof. left. rewrite sextet_eq. apply table_in_alphabet, mod_64_lt. Qed.

Lemma b64encode_chars (bs : bytes) : Forall base64_char (Base64.b64encode bs).
Proof.
  induction bs as [|b0|b0 b1|b0 b1 b2 rest IH] using list_ind3;
    cbn [Base64.b64encode app];
    repeat (constructor; [first [apply sextet_base64_char | now right]|]);
    first [constructor | exact IH].
Qed.

Lemma base64_char_not_special (c : char) : base64_char c -> html_special c = false.
Proof.
  assert (H : forallb (fun c => negb (html_special c))
                      (Base64.pad :: Base64.alphabet) = true) by reflexivity.
  rewrite forallb_forall in H. intros Hc. apply negb_true_iff, H.
  destruct Hc as [Hc | ->]; [now right | now left].
Qed.

Lemma utf8_encode_raises (s : str) (e : exn) :
  UTF8.encode s = Raise e -> e = UnicodeEncodeError /\ Exists unencodable s.
Proof.
  induction s as [|c s IH]; [discriminate|]. cbn [UTF8.encode].
  destruct (UTF8.encode_char c) as [bs|] eqn:Ec.
  - destruct (UTF8.encode s) as [tail | e0]; cbn [bind]; [discriminate|].
    intros [= <-]. destruct (IH eq_refl) as [-> Hex]. split; [reflexivity|].
    now apply Exists_cons_tl.
  - intros [= <-]. split; [reflexivity|]. now apply Exists_cons_hd.
Qed.

(** [download_button] on any table whatever: the one exception it can raise
    is the [UnicodeEncodeError] of a cell with a code point that UTF-8 cannot
    encode (a lone surrogate); otherwise it returns the link, and the payload
    in it is made of the base64 alphabet and [=] alone, so that no content of
    the table can end the [href] attribute or open markup. *)
Theorem download_button_link (os : platform) (df : Frame RankedRow) :
  (forall e, download_button os df = Raise e ->
             e = UnicodeEncodeError /\ Exists unencodable (to_csv os df))
  /\ (forall link, download_button os df = Return link ->
        exists payload,
          export_payload os df = Return payload
          /\ link = href payload
          /\ Forall base64_char payload
          /\ Forall (fun c => html_special c = false) payload)
  /\ (Forall (fun c => ~ unencodable c) (to_csv os df) ->
      exists payload, download_button os df = Return (href payload)).
Proof.
  unfold download_button, export_payload.
  destruct (UTF8.encode (to_csv os df)) as [encoded | e0] eqn:E; cbn [bind].
  - rewrite (utf8_decode_ascii _ (b64encode_ascii encoded)). cbn [bind].
    split; [discriminate|]. split.
    + intros link [= <-]. exists (Base64.b64encode encoded).
      split; [reflexivity|]. split; [reflexivity|].
      split; [apply b64encode_chars|].
      eapply Forall_impl; [|apply b64encode_chars].
      apply base64_char_not_special.
    + intros _. now eexists.
  - apply utf8_encode_raises in E. destruct E as [-> Hex].
    split; [|split].
    + intros e [= <-]. now split.
    + discriminate.
    + intros Hall. exfalso. apply Exists_exists in Hex.
      destruct Hex as (c & Hin & Hc). rewrite Forall_forall in Hall.
      exact (Hall c Hin Hc).
Qed.

(** ** Stopword entries that cannot match *)

Lemma filter_all {A : Type} (l : list A) : filter (fun _ => true) l = l.
Proof. induction l as [|x l IH]; [reflexivity|]. cbn. now rewrite IH. Qed.

Lemma str_in_letters_only (w : str) (ws : list str) :
  letters_only w = true -> str_in w (filter letters_only ws) = str_in w ws.
Proof.
  intros Hw. unfold str_in. induction ws as [|s ws IH]; [reflexivity|].
  cbn [filter existsb]. destruct (letters_only s) eqn:Es.
  - cbn [existsb]. now rewrite IH.
  - rewrite IH. destruct (str_eqb w s) eqn:E; [|reflexivity].
    apply str_eqb_eq in E. congruence.
Qed.

(** The tokens are words of Latin letters, so an entry of the stopword list
    that holds any other character (an apostrophe, as in the contractions of
    the NLTK list) never removes anything: [clean_text] gives the same tokens
    with those entries struck from the list; with the NLTK list, the token
    [dont] of [don't] stays. *)
Theorem stopwords_with_other_characters_are_dead
        (unicode_lower : str -> char -> str -> str) (stopwords : list str)
        (text : str) :
  clean_text unicode_lower stopwords text
  = clean_text unicode_lower (filter letters_only stopwords) text
  /\ (In (lit "don't") english_stopwords
      /\ clean_text sample_lower english_stopwords (lit "I don't know")
         = [lit "dont"; lit "know"]).
Proof.
  split.
  - pose proof (clean_text_words unicode_lower [] (fun _ => True) text) as H.
    unfold clean_text in H |- *. cbn [str_in existsb negb] in H.
    rewrite filter_all in H.
    apply filter_ext_in. intros w Hw. f_equal. symmetry.
    apply str_in_letters_only.
    assert (Hall : Forall (fun _ => True) (str_lower unicode_lower text))
      by (apply Forall_forall; auto).
    specialize (H Hall). rewrite Forall_forall in H.
    destruct (H w Hw) as [[_ Hword] _].
    unfold letters_only. apply forallb_forall. rewrite Forall_forall in Hword.
    intros c Hc. now destruct (Hword c Hc) as (_ & Hl & _).
  - split; [|vm_compute; reflexivity].
    apply str_in_In. vm_compute. reflexivity.
Qed.

(** ** The text of a PDF *)



(** ** The statements on the rest of the module at concrete inputs *)

Lemma plot_top_words_bars_witness :
  plot_top_words (Counter cat_tokens) 15
  = Ok ([lit "cat"; lit "sat"; lit "mat"; lit "ran"], [2; 1; 1; 1]).
Proof.
  assert (H1 : cat_tokens <> []) by discriminate.
  assert (H2 : 0 < 15) by lia.
  exact (proj1 (plot_top_words_bars cat_tokens 15 H1 H2)).
Defined.

Lemma chart_heights_witness :
  map snd (most_common 2 (Counter cat_tokens))
  = firstn 2 (map Frequency (rows (fst (get_word_stats stable_sort_desc cat_tokens)))).
Proof.
  exact (chart_heights_are_table_frequencies stable_sort_desc
           stable_sort_desc_perm stable_sort_desc_sorted cat_tokens 2).
Defined.

Lemma cached_fetchers_witness :
  let url := lit "https://example.org/a.txt" in
  cache_data (scrape_novel offline) [] url = (Return None, [(url, None)])
  /\ cache_data (fetch_text_from_url offline) [] url = (Return None, [(url, None)])
  /\ cache_data (scrape_novel (one_page (lit "text"))) [(url, None)] url
     = (Return None, [(url, None)])
  /\ cache_data (fetch_text_from_url (one_page (lit "text"))) [(url, None)] url
     = (Return None, [(url, None)]).
Proof.
  exact (cached_fetchers_keep_their_answer offline (one_page (lit "text")) []
           (lit "https://example.org/a.txt") eq_refl eq_refl).
Defined.

Lemma failed_download_witness :
  let r := sample_page (catalogue_only (lit "/ebooks/158")) fresh
             (inputs EnterNovelName true) in
  raised r = Some AttributeError
  /\ session (after r) = Some PyNone
  /\ shown r
     = [Call_get_book_url (lit "Emma");
        Call_scrape_novel (lit "https://www.gutenberg.org/ebooks/158.txt.utf-8");
        St_error novel_failed].
Proof.
  exact (failed_download_raises_attribute_error
           (catalogue_only (lit "/ebooks/158")) str first_link (fun tag => Return tag)
           str sample_fitz_open (fun page => page)
           sample_lower english_stopwords stable_sort_desc (fun _ => [])
           fresh (inputs EnterNovelName true)
           (lit "https://www.gutenberg.org/ebooks/158.txt.utf-8")
           eq_refl eq_refl eq_refl eq_refl).
Defined.

Lemma none_in_session_witness :
  let r := sample_page offline broken (inputs ProvideURL false) in
  (false = false -> raised r = Some AttributeError /\ after r = broken)
  /\ (raised r = None ->
      false = true /\ exists t, session (after r) = Some (PyStr t)).
Proof.
  exact (none_in_session_keeps_raising
           offline str first_link (fun tag => Return tag)
           str sample_fitz_open (fun page => page)
           sample_lower english_stopwords stable_sort_desc (fun _ => [])
           broken (inputs ProvideURL false) eq_refl (or_intror eq_refl)).
Defined.

Lemma attribute_error_origin_witness :
  exists book_url,
    get_book_url (catalogue_only (lit "/ebooks/158")) first_link
      (fun tag => Return tag) (lit "Emma")
    = Return (Some book_url)
    /\ fst (cache_data (scrape_novel (catalogue_only (lit "/ebooks/158"))) [] book_url)
       = Return None.
Proof.
  assert (H1 : session fresh <> Some PyNone) by discriminate.
  exact (proj2 (proj2 (attribute_error_only_from_failed_download
           (catalogue_only (lit "/ebooks/158")) str first_link (fun tag => Return tag)
           str sample_fitz_open (fun page => page)
           sample_lower english_stopwords stable_sort_desc (fun _ => [])
           fresh (inputs EnterNovelName true) H1 (or_introl eq_refl)))).
Defined.

Lemma upload_and_paste_witness :
  let r := sample_page offline fresh (inputs PasteParagraph false) in
  let r' := sample_page offline broken (inputs PasteParagraph false) in
  after r = {| session := Some (PyStr []); novel_cache := []; url_cache := [] |}
  /\ shown r = shown r'
  /\ raised r = raised r'
  /\ raised r <> Some AttributeError.
Proof.
  exact (upload_and_paste_leave_the_session
           offline str first_link (fun tag => Return tag)
           str sample_fitz_open (fun page => page)
           sample_lower english_stopwords stable_sort_desc (fun _ => [])
           fresh broken (inputs PasteParagraph false) (or_intror eq_refl)).
Defined.

Lemma failed_fetch_witness :
  let old := lit "The cat sat." in
  let r := sample_page offline (with_text old) (inputs ProvideURL true) in
  session (after r) = Some (PyStr old)
  /\ raised r = None
  /\ shown r
     = [Call_fetch_text_from_url (lit "https://example.org/a.txt"); St_error url_failed]
       ++ map Analysis
            (analyze_section sample_lower english_stopwords stable_sort_desc
               (fun _ => []) old true).
Proof.
  exact (proj1 (proj2 (failed_fetch_analyses_the_old_text
           offline str first_link (fun tag => Return tag)
           str sample_fitz_open (fun page => page)
           sample_lower english_stopwords stable_sort_desc (fun _ => [])
           (with_text (lit "The cat sat.")) (inputs ProvideURL true)
           (lit "The cat sat.") eq_refl))
           eq_refl eq_refl (or_introl eq_refl)).
Defined.

Lemma failed_download_is_remembered_witness :
  let first := sample_page (catalogue_only (lit "/ebooks/158")) fresh
                 (inputs EnterNovelName true) in
  let second := sample_page (one_page (lit "/ebooks/158")) (after first)
                  (inputs EnterNovelName true) in
  raised first = Some AttributeError
  /\ raised second = Some AttributeError
  /\ session (after second) = Some PyNone
  /\ shown second = shown first
  /\ after second = after first.
Proof.
  exact (failed_download_is_remembered
           str first_link (fun tag => Return tag)
           str sample_fitz_open (fun page => page)
           sample_lower english_stopwords stable_sort_desc (fun _ => [])
           (catalogue_only (lit "/ebooks/158")) (one_page (lit "/ebooks/158"))
           fresh (inputs EnterNovelName true)
           (lit "https://www.gutenberg.org/ebooks/158.txt.utf-8")
           eq_refl eq_refl eq_refl eq_refl eq_refl eq_refl).
Defined.

Lemma fetched_book_witness :
  let body := lit "/ebooks/158" in
  let book_url := lit "https://www.gutenberg.org/ebooks/158.txt.utf-8" in
  let r := sample_page (one_page body) fresh (inputs EnterNovelName true) in
  after r = {| session := Some (PyStr body);
               novel_cache := [(book_url, Some body)];
               url_cache := [] |}
  /\ raised r = None
  /\ shown r
     = [Call_get_book_url (lit "Emma"); Call_scrape_novel book_url;
        St_success book_fetched]
       ++ map Analysis
            (analyze_section sample_lower english_stopwords stable_sort_desc
               (fun _ => []) body true).
Proof.
  exact (fetched_book_is_stored_and_analysed
           str first_link (fun tag => Return tag)
           str sample_fitz_open (fun page => page)
           sample_lower english_stopwords stable_sort_desc (fun _ => [])
           (one_page (lit "/ebooks/158")) fresh (inputs EnterNovelName true)
           {| ok := true; text := lit "/ebooks/158" |} (lit "/ebooks/158")
           (lit "/ebooks/158") (lit "/ebooks/158")
           eq_refl eq_refl eq_refl eq_refl eq_refl eq_refl eq_refl).
Defined.

Lemma analysis_calls_witness :
  let shown := analyze_section sample_lower english_stopwords stable_sort_desc
                 (fun _ => []) the_cat_sat true in
  (forall word_freq,
     In (Call_plot_top_words word_freq) shown ->
     exists w c ws cs, plot_top_words word_freq 15 = Ok (w :: ws, c :: cs))
  /\ (forall df,
        In (Call_download_button df) shown ->
        exists payload,
          download_button Windows df = Return (href payload)
          /\ decode_export payload = Some (header, rows df)).
Proof.
  exact (analysis_calls_succeed sample_lower english_stopwords stable_sort_desc
           (fun _ => []) stable_sort_desc_perm stable_sort_desc_sorted
           Windows the_cat_sat true).
Defined.

(** ** The errors the inputs let through *)

Lemma cached_fetch_text_from_url_returns
      (requests_get : str -> result Response) (c : Cache) (url : str) :
  exists v c', cache_data (fetch_text_from_url requests_get) c url = (Return v, c').
Proof.
  unfold cache_data. destruct (cache_get url c) as [v|]; [now eexists _, _|].
  unfold fetch_text_from_url. destruct (requests_get url); now eexists _, _.
Qed.

Section PageErrors.

Variable requests_get : str -> result Response.
Variable Tag : Type.
Variable find_booklink : str -> option Tag.
Variable anchor_href : Tag -> result str.
Variable Page : Type.
Variable fitz_open : bytes -> option (list Page).
Variable get_text : Page -> str.
Variable unicode_lower : str -> char -> str -> str.
Variable stopwords : list str.
Variable sort_desc : forall A : Type, (A -> nat) -> list A -> list A.
Variable extract_top_keywords : str -> list (str * float).

Local Abbreviation run :=
  (page_run requests_get find_booklink anchor_href fitz_open get_text
     unicode_lower stopwords sort_desc extract_top_keywords).
Local Abbreviation book_url_of :=
  (get_book_url requests_get find_booklink anchor_href).

(** The exceptions the input part of a run lets out.  An exception of the
    network or of the search page ends the run exactly under Enter Novel
    Name with the button clicked, when [get_book_url] raises it (it has no
    handler, so a lost connection ends the run there with no message shown)
    or when [scrape_novel] raises one that is not a [RequestException];
    Provide URL lets none out.  The error of an unreadable PDF ends the run
    exactly under Upload PDF with such a file. *)
Theorem uncaught_errors_of_the_inputs (st : State) (i : Inputs) :
  (forall e,
     raised (run st i) = Some (Known e)
     <-> in_method i = EnterNovelName /\ in_fetch i = true
         /\ (book_url_of (in_book_name i) = Raise e
             \/ exists book_url,
                  book_url_of (in_book_name i) = Return (Some book_url)
                  /\ fst (cache_data (scrape_novel requests_get) (novel_cache st)
                            book_url) = Raise e))
  /\ (raised (run st i) = Some FileDataError
      <-> in_method i = UploadPDF
          /\ exists pdf_file, in_upload i = Some pdf_file
                              /\ fitz_open pdf_file = None)
  /\ (forall e,
        in_method i = EnterNovelName -> in_fetch i = true ->
        requests_get (search_url (in_book_name i)) = Raise e ->
        raised (run st i) = Some (Known e)
        /\ shown (run st i) = [Call_get_book_url (in_book_name i)]
        /\ novel_cache (after (run st i)) = novel_cache st).
Proof.
  unfold page_run. split; [|split].
  - intros e. destruct (in_method i).
    + destruct (in_fetch i).
      2:{ destruct (match session st with Some v => v | None => PyStr [] end);
          cbn; (split; [discriminate | intros (_ & H & _); discriminate]). }
      destruct (book_url_of (in_book_name i)) as [[book_url|] | e0] eqn:Eb.
      * destruct (cache_data (scrape_novel requests_get) (novel_cache st) book_url)
          as [[[t|] | e1] c] eqn:Ec; cbn.
        -- split; [discriminate|].
           intros (_ & _ & [H | (u & [= <-] & H)]); [discriminate|].
           rewrite Ec in H. discriminate.
        -- split; [discriminate|].
           intros (_ & _ & [H | (u & [= <-] & H)]); [discriminate|].
           rewrite Ec in H. discriminate.
        -- split.
           ++ intros [= <-]. repeat split. right. exists book_url.
              split; [reflexivity|]. now rewrite Ec.
           ++ intros (_ & _ & [H | (u & [= <-] & H)]); [discriminate|].
              rewrite Ec in H. cbn in H. congruence.
      * destruct (match session st with Some v => v | None => PyStr [] end); cbn;
          (split; [discriminate|]);
          intros (_ & _ & [H | (u & H & _)]); discriminate.
      * cbn. split.
        -- intros [= <-]. repeat split. now left.
        -- intros (_ & _ & [[= <-] | (u & H & _)]); [reflexivity | discriminate].
    + destruct (in_upload i) as [pdf_file|].
      * unfold extract_text_from_pdf. destruct (fitz_open pdf_file); cbn;
          (split; [discriminate | intros (H & _); discriminate]).
      * cbn. split; [discriminate | intros (H & _); discriminate].
    + cbn. split; [discriminate | intros (H & _); discriminate].
    + destruct (in_fetch i).
      * destruct (cached_fetch_text_from_url_returns requests_get (url_cache st)
                    (in_url i)) as (v & c & ->).
        destruct (truthy (of_option v));
          destruct (match session st with Some v => v | None => PyStr [] end);
          destruct v as [[|x t]|]; cbn;
          (split; [discriminate | intros (H & _); discriminate]).
      * destruct (match session st with Some v => v | None => PyStr [] end); cbn;
          (split; [discriminate | intros (H & _); discriminate]).
  - destruct (in_method i).
    + destruct (in_fetch i).
      2:{ destruct (match session st with Some v => v | None => PyStr [] end);
          cbn; (split; [discriminate | intros (H & _); discriminate]). }
      destruct (book_url_of (in_book_name i)) as [[book_url|] | e0].
      * destruct (cache_data (scrape_novel requests_get) (novel_cache st) book_url)
          as [[[t|] | e1] c]; cbn;
          (split; [discriminate | intros (H & _); discriminate]).
      * destruct (match session st with Some v => v | None => PyStr [] end); cbn;
          (split; [discriminate | intros (H & _); discriminate]).
      * cbn. split; [discriminate | intros (H & _); discriminate].
    + destruct (in_upload i) as [pdf_file|].
      * unfold extract_text_from_pdf.
        destruct (fitz_open pdf_file) as [doc|] eqn:Eo; cbn.
        -- split; [discriminate|]. intros (_ & f & [= <-] & H). congruence.
        -- split; [|reflexivity]. intros _. split; [reflexivity|]. now exists pdf_file.
      * cbn. split; [discriminate|]. intros (_ & f & H & _). discriminate.
    + cbn. split; [discriminate | intros (H & _); discriminate].
    + destruct (in_fetch i).
      * destruct (cached_fetch_text_from_url_returns requests_get (url_cache st)
                    (in_url i)) as (v & c & ->).
        destruct (truthy (of_option v));
          destruct (match session st with Some v => v | None => PyStr [] end);
          destruct v as [[|x t]|]; cbn;
          (split; [discriminate | intros (H & _); discriminate]).
      * destruct (match session st with Some v => v | None => PyStr [] end); cbn;
          (split; [discriminate | intros (H & _); discriminate]).
  - intros e Hm Hf Hget. rewrite Hm, Hf. unfold get_book_url. rewrite Hget.
    cbn. repeat split.
Qed.

End PageErrors.

Lemma uncaught_errors_witness :
  let r := sample_page offline fresh (inputs EnterNovelName true) in
  raised r = Some (Known RequestException)
  /\ shown r = [Call_get_book_url (lit "Emma")]
  /\ novel_cache (after r) = [].
Proof.
  exact (proj2 (proj2 (uncaught_errors_of_the_inputs
           offline str first_link (fun tag => Return tag)
           str sample_fitz_open (fun page => page)
           sample_lower english_stopwords stable_sort_desc (fun _ => [])
           fresh (inputs EnterNovelName true)))
           RequestException eq_refl eq_refl eq_refl).
Defined.
